(** * mDNS device discovery: wire-format decoding and device reconciliation

    A shallow embedding of [src/src/device_discovery.cpp] (class
    [DeviceDiscovery::Impl]) and of the [DeviceInfo] structure declared in
    [src/include/device_discovery.h], with the TXT decoder of
    [src/src/mdns_browser.cpp] and the result handling of the ESP32 client
    in [src/esp32/main/mdns/mdns_discovery.cc].

    Conventions of the embedding:
    - [uint8_t] and [char] are [byte]; a [std::string] is a [list byte];
    - a received datagram [data, data + size) is a [list byte] whose length
      is [size]; a [const uint8_t*] into it is the offset from [data];
    - a dereference outside the datagram is the outcome [ReadPastEnd]: the
      byte found there is no part of the message; the module [Buffer] has
      the same decoders with that byte as a parameter and follows the code
      through the read;
    - [std::map<std::string, std::string>] is a [gmap];
    - recursion that the source does not bound is driven by a [fuel]
      argument, and [None] stands for "has not returned yet". *)

From Stdlib Require Import NArith Strings.Byte Strings.String.
From stdpp Require Import base decidable countable numbers option list finite gmap.

Local Open Scope nat_scope.

(** ** Bytes and strings *)

Module Bytes.

#[global] Instance byte_eq_dec : EqDecision byte := Byte.byte_eq_dec.

#[global] Instance byte_countable : Countable byte :=
  inj_countable Byte.to_N Byte.of_N Byte.of_to_N.

(** [static_cast<uint8_t>(n)]: the value modulo 256. *)
Definition u8 (n : N) : byte :=
  match Byte.of_N (n mod 256)%N with
  | Some b => b
  | None => x00
  end.

(** The numeric value of a byte after integral promotion. *)
Definition val (b : byte) : N := Byte.to_N b.

Definition nval (b : byte) : nat := N.to_nat (Byte.to_N b).

(** A string literal of the source as a [std::string]. *)
Definition str (s : string) : list byte := list_byte_of_string s.

Definition dot : byte := "."%byte.
Definition equals : byte := "="%byte.

End Bytes.
Import Bytes.

(** ** Outcomes of the decoding functions

    The decoders of the source return [bool] and move the cursor [ptr],
    which they take by reference, also when they fail. *)

Inductive result (A : Type) : Type :=
  | Ret (a : A) (ptr : nat)
  | Err (ptr : nat)
  | ReadPastEnd (i : nat).

Arguments Ret {A} a ptr.
Arguments Err {A} ptr.
Arguments ReadPastEnd {A} i.

(** ** parseDNSName (device_discovery.cpp, lines 567-639) *)

(** [len & 0xC0], as a condition. *)
Definition is_pointer (len : byte) : bool :=
  negb (N.eqb (N.land (val len) 0xC0) 0).

(** [((len & 0x3F) << 8) | *ptr]. *)
Definition pointer_offset (len lo : byte) : nat :=
  N.to_nat (N.lor (N.shiftl (N.land (val len) 0x3F) 8) (val lo)).

(** [if (!first) name += '.'; name += s]. *)
Definition append_label (name : list byte) (first : bool) (s : list byte) : list byte :=
  (if first then name else name ++ [dot]) ++ s.

(** The code after the loop: an empty name is a failure. *)
Definition finish_name (name : list byte) (ptr : nat) : result (list byte) :=
  match name with
  | [] => Err ptr
  | _ => Ret name ptr
  end.

(** [parseDNSName_from fuel buf ptr name first] is the [while] loop of
    [parseDNSName] entered with cursor [ptr] and the locals [name] and
    [first]; [end] is [length buf] and [basePtr] is offset 0, so that
    [buf !! ptr] is [None] exactly when [ptr >= end].  Every loop iteration
    and every recursive call uses one unit of [fuel]. *)
Fixpoint parseDNSName_from (fuel : nat) (buf : list byte) (ptr : nat)
    (name : list byte) (first : bool) : option (result (list byte)) :=
  match fuel with
  | O => None
  | S fuel =>
    match buf !! ptr with
    | None => Some (finish_name name ptr)
    | Some len =>
      let ptr := S ptr in
      if is_pointer len then
        match buf !! ptr with
        | None => Some (ReadPastEnd ptr)
        | Some lo =>
          let offset := pointer_offset len lo in
          if decide (length buf ≤ offset) then Some (Err ptr)
          else
            match parseDNSName_from fuel buf offset [] true with
            | None => None
            | Some (Ret remainingName _) =>
                Some (Ret (append_label name first remainingName) (S ptr))
            | Some (Err _) => Some (Err ptr)
            | Some (ReadPastEnd i) => Some (ReadPastEnd i)
            end
        end
      else if decide (val len = 0%N) then Some (finish_name name ptr)
      else if decide (length buf < ptr + nval len) then Some (Err ptr)
      else
        parseDNSName_from fuel buf (ptr + nval len)
          (append_label name first (take (nval len) (drop ptr buf))) false
    end
  end.

Definition parseDNSName (fuel : nat) (buf : list byte) (ptr : nat)
    : option (result (list byte)) :=
  parseDNSName_from fuel buf ptr [] true.

(** The only dereference that can leave the buffer: the second byte of a
    compression pointer whose first byte is the last byte of the buffer. *)
Definition overread (buf : list byte) (i : nat) : Prop :=
  i = length buf ∧ ∃ len, buf !! (i - 1) = Some len ∧ is_pointer len = true.

(** ** parseRecordHeader (lines 517-550) *)

Record RecordHeader := {
  rr_name : list byte;
  rr_type : N;
  rr_rdlength : nat;
  rr_rdata : nat;
}.

(** [(hi << 8) | lo]. *)
Definition be16 (hi lo : byte) : N := N.lor (N.shiftl (val hi) 8) (val lo).

(** The two bytes at [i] and [i + 1] as a big-endian 16-bit value. *)
Definition get16 (buf : list byte) (i : nat) : option N :=
  match buf !! i, buf !! (S i) with
  | Some hi, Some lo => Some (be16 hi lo)
  | _, _ => None
  end.

(** The class and the TTL of the record (bytes [ptr + 2] to [ptr + 7]) are
    read for the log line only and are left out.  After the test
    [ptr + 10 > end] the ten bytes of the header are inside the buffer, so
    the last case of the inner [match] does not arise. *)
Definition parseRecordHeader (fuel : nat) (buf : list byte) (ptr : nat)
    : option (result RecordHeader) :=
  match parseDNSName fuel buf ptr with
  | None => None
  | Some (Err ptr) => Some (Err ptr)
  | Some (ReadPastEnd i) => Some (ReadPastEnd i)
  | Some (Ret name ptr) =>
    if decide (length buf < ptr + 10) then Some (Err ptr)
    else
      match get16 buf ptr, get16 buf (ptr + 8) with
      | Some type, Some rdlength =>
        let ptr := ptr + 10 in
        if decide (length buf < ptr + N.to_nat rdlength) then Some (Err ptr)
        else Some (Ret {| rr_name := name; rr_type := type;
                          rr_rdlength := N.to_nat rdlength; rr_rdata := ptr |} ptr)
      | _, _ => Some (ReadPastEnd ptr)
      end
  end.

(** ** parseTXT (lines 651-679) *)

(** [s.find(c)]: the index of the first occurrence, [None] for [npos]. *)
Definition find_char (c : byte) (s : list byte) : option nat :=
  fst <$> list_find (λ b, b = c) s.

(** [parseTXT_loop n data ptr txtRecords] is the [while] loop over the
    slice [data] = [ptr, ptr + length) of the record, with the cursor
    relative to the start of the slice.  An iteration moves the cursor by
    at least one byte, so the counter [n], started at [length data], never
    cuts the loop short. *)
Fixpoint parseTXT_loop (n : nat) (data : list byte) (ptr : nat)
    (txtRecords : gmap (list byte) (list byte)) : gmap (list byte) (list byte) :=
  match n with
  | O => txtRecords
  | S n =>
    match data !! ptr with
    | None => txtRecords
    | Some len =>
      let ptr := S ptr in
      if decide (length data < ptr + nval len) then txtRecords
      else
        let record := take (nval len) (drop ptr data) in
        let txtRecords :=
          match find_char equals record with
          | Some sep => <[take sep record := drop (S sep) record]> txtRecords
          | None => txtRecords
          end in
        parseTXT_loop n data (ptr + nval len) txtRecords
    end
  end.

Definition parseTXT (data : list byte) (txtRecords : gmap (list byte) (list byte))
    : gmap (list byte) (list byte) :=
  parseTXT_loop (length data) data 0 txtRecords.

(** *** TXT payloads as the sender writes them

    An entry is either [key=value] or a text without [=]; on the wire it
    is one length byte followed by its text. *)

Inductive txt_entry : Type :=
  | KeyValue (key value : list byte)
  | Bare (text : list byte).

Definition entry_text (e : txt_entry) : list byte :=
  match e with
  | KeyValue key value => key ++ equals :: value
  | Bare text => text
  end.

Definition entry_key (e : txt_entry) : option (list byte) :=
  match e with
  | KeyValue key _ => Some key
  | Bare _ => None
  end.

(** The text fits one length byte, and the [=] that separates key and
    value is the first one of the entry. *)
Definition entry_wf (e : txt_entry) : Prop :=
  length (entry_text e) ≤ 255 ∧
  match e with
  | KeyValue key _ => equals ∉ key
  | Bare text => equals ∉ text
  end.

Definition entry_bytes (e : txt_entry) : list byte :=
  u8 (N.of_nat (length (entry_text e))) :: entry_text e.

Definition txt_bytes (es : list txt_entry) : list byte :=
  es ≫= entry_bytes.

(** What is left of a payload after its last complete entry: nothing, or
    a length byte that announces more bytes than follow. *)
Definition cut_short (tail : list byte) : Prop :=
  match tail with
  | [] => True
  | len :: rest => length rest < nval len
  end.

(** The effect of one entry on the attributes. *)
Definition store (txtRecords : gmap (list byte) (list byte)) (e : txt_entry)
    : gmap (list byte) (list byte) :=
  match e with
  | KeyValue key value => <[key := value]> txtRecords
  | Bare _ => txtRecords
  end.

(** ** DeviceInfo (device_discovery.h, lines 81-89) and the device list *)

Record DeviceInfo := {
  name : list byte;
  ip : list byte;
  txtRecords : gmap (list byte) (list byte);
}.

(** The service name that [parseMDNSResponse] looks for in record names. *)
Definition target_service : list byte := str "_leboremote._tcp.local".

Fixpoint starts_with (pat s : list byte) : bool :=
  match pat, s with
  | [], _ => true
  | p :: pat, c :: s => bool_decide (p = c) && starts_with pat s
  | _ :: _, [] => false
  end.

(** [s.find(pat) != std::string::npos]. *)
Fixpoint contains (pat s : list byte) : bool :=
  starts_with pat s ||
  match s with
  | [] => false
  | _ :: s => contains pat s
  end.

(** Lines 470-509 inside the guard: the lookup by name in
    [discoveredDevices] and what follows it.  The result is the new device
    list and the arguments of the calls of [callback], in order. *)
Definition reconcile (discoveredDevices : list DeviceInfo) (tempInfo : DeviceInfo)
    : list DeviceInfo * list DeviceInfo :=
  match list_find (λ d, name d = name tempInfo) discoveredDevices with
  | None => (discoveredDevices ++ [tempInfo], [tempInfo])
  | Some (index, it) =>
    if decide (txtRecords tempInfo = ∅) then (discoveredDevices, [])
    else
      let it := {| name := name it; ip := ip tempInfo;
                   txtRecords := txtRecords tempInfo |} in
      (<[index := it]> discoveredDevices, [it])
  end.

(** The entry of the list that [std::find_if] returns for a candidate:
    the first one of that name. *)
Definition first_named (devs : list DeviceInfo) (cand : DeviceInfo) (i : nat)
    (d : DeviceInfo) : Prop :=
  devs !! i = Some d ∧ name d = name cand ∧
  ∀ j d', devs !! j = Some d' → j < i → name d' ≠ name cand.

(** The found entry after the assignments of lines 497-498. *)
Definition refreshed (d cand : DeviceInfo) : DeviceInfo :=
  {| name := name d; ip := ip cand; txtRecords := txtRecords cand |}.

(** ** parseMDNSResponse (lines 378-515) *)

(** The two loops of [parseMDNSResponse] run to the end of their count
    unless a dereference leaves the datagram. *)
Inductive pass (A : Type) : Type :=
  | Through (a : A) (ptr : nat)
  | PastEnd (i : nat).

Arguments Through {A} a ptr.
Arguments PastEnd {A} i.

(** The loop that skips the questions: after a name that decodes, the
    cursor moves 4 bytes on; after one that does not, the cursor stays
    where [parseDNSName] left it. *)
Fixpoint skip_questions (fuel : nat) (buf : list byte) (qdcount ptr : nat)
    : option (pass unit) :=
  match qdcount with
  | O => Some (Through () ptr)
  | S qdcount =>
    match parseDNSName fuel buf ptr with
    | None => None
    | Some (Ret _ ptr) => skip_questions fuel buf qdcount (ptr + 4)
    | Some (Err ptr) => skip_questions fuel buf qdcount ptr
    | Some (ReadPastEnd i) => Some (PastEnd i)
    end
  end.

(** One answer whose header decoded: lines 442-466. *)
Definition apply_record (buf : list byte) (rr : RecordHeader)
    (tempInfo : DeviceInfo) (isTargetService : bool) : DeviceInfo * bool :=
  let '(tempInfo, isTargetService) :=
    if contains target_service (rr_name rr)
    then ({| name := rr_name rr; ip := ip tempInfo;
             txtRecords := txtRecords tempInfo |}, true)
    else (tempInfo, isTargetService) in
  if decide (rr_type rr = 16%N) then
    if isTargetService then
      ({| name := name tempInfo; ip := ip tempInfo;
          txtRecords := parseTXT (take (rr_rdlength rr) (drop (rr_rdata rr) buf))
                                 (txtRecords tempInfo) |}, isTargetService)
    else (tempInfo, isTargetService)
  else (tempInfo, isTargetService).

(** The loop over the answers (lines 429-467); a record whose header does
    not decode takes the [continue]. *)
Fixpoint parse_answers (fuel : nat) (buf : list byte) (ancount ptr : nat)
    (tempInfo : DeviceInfo) (isTargetService : bool)
    : option (pass (DeviceInfo * bool)) :=
  match ancount with
  | O => Some (Through (tempInfo, isTargetService) ptr)
  | S ancount =>
    match parseRecordHeader fuel buf ptr with
    | None => None
    | Some (ReadPastEnd i) => Some (PastEnd i)
    | Some (Err ptr) => parse_answers fuel buf ancount ptr tempInfo isTargetService
    | Some (Ret rr _) =>
      let '(tempInfo, isTargetService) :=
        apply_record buf rr tempInfo isTargetService in
      parse_answers fuel buf ancount (rr_rdata rr + rr_rdlength rr)
        tempInfo isTargetService
    end
  end.

(** What one call of [parseMDNSResponse] does to the device list and to
    the observer. *)
Inductive outcome : Type :=
  | Processed (discoveredDevices : list DeviceInfo) (calls : list DeviceInfo)
  | OutOfBounds (i : nat).

(** [sizeof(DNSHeader)]. *)
Definition header_size : nat := 12.

(** Lines 469-509: the guard and the reconciliation. *)
Definition notify (discoveredDevices : list DeviceInfo) (tempInfo : DeviceInfo)
    (isTargetService : bool) : list DeviceInfo * list DeviceInfo :=
  if decide (name tempInfo = []) then (discoveredDevices, [])
  else if isTargetService then reconcile discoveredDevices tempInfo
  else (discoveredDevices, []).

(** [sender] is the text that [inet_ntoa] gives for the address of the
    sender.  After the test on [size] the header is inside the datagram, so
    the last case of the outer [match] does not arise. *)
Definition parseMDNSResponse (fuel : nat) (data : list byte) (sender : list byte)
    (discoveredDevices : list DeviceInfo) : option outcome :=
  if decide (length data < header_size) then Some (Processed discoveredDevices [])
  else
    match get16 data 2, get16 data 4, get16 data 6 with
    | Some flags, Some qdcount, Some ancount =>
      if decide (N.land flags 0x8000 = 0%N) then Some (Processed discoveredDevices [])
      else
        match skip_questions fuel data (N.to_nat qdcount) header_size with
        | None => None
        | Some (PastEnd i) => Some (OutOfBounds i)
        | Some (Through _ ptr) =>
          let tempInfo := {| name := []; ip := sender; txtRecords := ∅ |} in
          match parse_answers fuel data (N.to_nat ancount) ptr tempInfo false with
          | None => None
          | Some (PastEnd i) => Some (OutOfBounds i)
          | Some (Through (tempInfo, isTargetService) _) =>
            let '(devs, calls) := notify discoveredDevices tempInfo isTargetService in
            Some (Processed devs calls)
          end
        end
    | _, _, _ => Some (OutOfBounds (length data))
    end.

(** ** The decoders on the receive buffer

    The receive thread reads each datagram into [buffer], an array of 1500
    bytes, and hands [buffer.data()] and the number of bytes received to
    [parseMDNSResponse] (lines 245-265).  The one dereference that can
    leave the datagram, [*ptr] in line 581 when [ptr == end], finds the
    byte that lies after the datagram (after the array, for a datagram of
    1500 bytes), and the code goes on with it.  The
    definitions of this module follow the code through that read, with
    [next] for that byte; they differ from the definitions above in this
    only, and a call has one of two results. *)

Module Buffer.

Inductive result (A : Type) : Type :=
  | Ret (a : A) (ptr : nat)
  | Err (ptr : nat).

Arguments Ret {A} a ptr.
Arguments Err {A} ptr.

Definition finish_name (name : list byte) (ptr : nat) : result (list byte) :=
  match name with
  | [] => Err ptr
  | _ => Ret name ptr
  end.

(** [parseDNSName] (lines 567-639).  The length byte was read at an
    offset before [end], so the second byte of a pointer is at [end] at
    most: [default next (buf !! ptr)] is the byte at [ptr]. *)
Fixpoint parseDNSName_from (fuel : nat) (buf : list byte) (next : byte)
    (ptr : nat) (name : list byte) (first : bool)
    : option (result (list byte)) :=
  match fuel with
  | O => None
  | S fuel =>
    match buf !! ptr with
    | None => Some (finish_name name ptr)
    | Some len =>
      let ptr := S ptr in
      if is_pointer len then
        let offset := pointer_offset len (default next (buf !! ptr)) in
        if decide (length buf ≤ offset) then Some (Err ptr)
        else
          match parseDNSName_from fuel buf next offset [] true with
          | None => None
          | Some (Ret remainingName _) =>
              Some (Ret (append_label name first remainingName) (S ptr))
          | Some (Err _) => Some (Err ptr)
          end
      else if decide (val len = 0%N) then Some (finish_name name ptr)
      else if decide (length buf < ptr + nval len) then Some (Err ptr)
      else
        parseDNSName_from fuel buf next (ptr + nval len)
          (append_label name first (take (nval len) (drop ptr buf))) false
    end
  end.

Definition parseDNSName (fuel : nat) (buf : list byte) (next : byte)
    (ptr : nat) : option (result (list byte)) :=
  parseDNSName_from fuel buf next ptr [] true.

(** *** Where the pointers lead

    [pointer_after n buf next ptr] follows the loop of [parseDNSName] from
    [ptr] over at most [n] length bytes, without the recursion, and gives
    the offset at which the call recurses, if it does. *)
Fixpoint pointer_after (n : nat) (buf : list byte) (next : byte) (ptr : nat)
    : option nat :=
  match n with
  | O => None
  | S n =>
    match buf !! ptr with
    | None => None
    | Some len =>
      if is_pointer len then
        let offset := pointer_offset len (default next (buf !! S ptr)) in
        if decide (length buf ≤ offset) then None else Some offset
      else if decide (val len = 0%N) then None
      else if decide (length buf < S ptr + nval len) then None
      else pointer_after n buf next (S ptr + nval len)
    end
  end.

(** The offset at which the call at [ptr] recurses: a loop iteration moves
    the cursor by two bytes at least, so [length buf] iterations reach the
    end of the buffer. *)
Definition pointer_of (buf : list byte) (next : byte) (ptr : nat) : option nat :=
  pointer_after (length buf) buf next ptr.

(** The offset of the [n]-th recursive call of the chain of calls that
    begins with the call at [ptr], if the chain has that many. *)
Fixpoint follow (n : nat) (buf : list byte) (next : byte) (ptr : nat)
    : option nat :=
  match n with
  | O => Some ptr
  | S n => pointer_of buf next ptr ≫= follow n buf next
  end.

(** The chain of calls comes to an end.  A recursive call begins inside
    the buffer, so a chain that begins no two calls at the same offset has
    [length buf] recursive calls at most. *)
Definition loop_free (buf : list byte) (next : byte) (ptr : nat) : bool :=
  bool_decide (follow (S (length buf)) buf next ptr = None).

(** [parseRecordHeader] (lines 517-550).  After the test [ptr + 10 > end]
    the ten bytes of the header are inside the buffer, so the last case of
    the inner [match] does not arise. *)
Definition parseRecordHeader (fuel : nat) (buf : list byte) (next : byte)
    (ptr : nat) : option (result RecordHeader) :=
  match parseDNSName fuel buf next ptr with
  | None => None
  | Some (Err ptr) => Some (Err ptr)
  | Some (Ret name ptr) =>
    if decide (length buf < ptr + 10) then Some (Err ptr)
    else
      match get16 buf ptr, get16 buf (ptr + 8) with
      | Some type, Some rdlength =>
        let ptr := ptr + 10 in
        if decide (length buf < ptr + N.to_nat rdlength) then Some (Err ptr)
        else Some (Ret {| rr_name := name; rr_type := type;
                          rr_rdlength := N.to_nat rdlength; rr_rdata := ptr |} ptr)
      | _, _ => Some (Err ptr)
      end
  end.

(** The loop that skips the questions (lines 414-422); the result is the
    cursor after it. *)
Fixpoint skip_questions (fuel : nat) (buf : list byte) (next : byte)
    (qdcount ptr : nat) : option nat :=
  match qdcount with
  | O => Some ptr
  | S qdcount =>
    match parseDNSName fuel buf next ptr with
    | None => None
    | Some (Ret _ ptr) => skip_questions fuel buf next qdcount (ptr + 4)
    | Some (Err ptr) => skip_questions fuel buf next qdcount ptr
    end
  end.

(** The loop over the answers (lines 429-467); the result is the candidate
    and the flag after it. *)
Fixpoint parse_answers (fuel : nat) (buf : list byte) (next : byte)
    (ancount ptr : nat) (tempInfo : DeviceInfo) (isTargetService : bool)
    : option (DeviceInfo * bool) :=
  match ancount with
  | O => Some (tempInfo, isTargetService)
  | S ancount =>
    match parseRecordHeader fuel buf next ptr with
    | None => None
    | Some (Err ptr) =>
        parse_answers fuel buf next ancount ptr tempInfo isTargetService
    | Some (Ret rr _) =>
      let '(tempInfo, isTargetService) :=
        apply_record buf rr tempInfo isTargetService in
      parse_answers fuel buf next ancount (rr_rdata rr + rr_rdlength rr)
        tempInfo isTargetService
    end
  end.

(** [parseMDNSResponse] (lines 378-515); the result is the new device list
    and the arguments of the calls of [callback].  After the test on
    [size] the header is inside the datagram, so the last case of the
    outer [match] does not arise. *)
Definition parseMDNSResponse (fuel : nat) (data : list byte) (next : byte)
    (sender : list byte) (discoveredDevices : list DeviceInfo)
    : option (list DeviceInfo * list DeviceInfo) :=
  if decide (length data < header_size) then Some (discoveredDevices, [])
  else
    match get16 data 2, get16 data 4, get16 data 6 with
    | Some flags, Some qdcount, Some ancount =>
      if decide (N.land flags 0x8000 = 0%N) then Some (discoveredDevices, [])
      else
        match skip_questions fuel data next (N.to_nat qdcount) header_size with
        | None => None
        | Some ptr =>
          let tempInfo := {| name := []; ip := sender; txtRecords := ∅ |} in
          match parse_answers fuel data next (N.to_nat ancount) ptr tempInfo false with
          | None => None
          | Some (tempInfo, isTargetService) =>
              Some (notify discoveredDevices tempInfo isTargetService)
          end
        end
    | _, _, _ => Some (discoveredDevices, [])
    end.

(** *** The answers of a datagram, one by one

    [answers fuel buf next ancount ptr] lists what [parseRecordHeader]
    returns for each of the [ancount] answers when the first is decoded at
    [ptr] and each of the others where the one before it left the cursor:
    after its data when it was decoded, and where [parseRecordHeader]
    stopped when it was not. *)
Fixpoint answers (fuel : nat) (buf : list byte) (next : byte)
    (ancount ptr : nat) : option (list (result RecordHeader)) :=
  match ancount with
  | O => Some []
  | S ancount =>
    match parseRecordHeader fuel buf next ptr with
    | None => None
    | Some (Err ptr) => (Err ptr ::.) <$> answers fuel buf next ancount ptr
    | Some (Ret rr p) =>
        (Ret rr p ::.) <$>
          answers fuel buf next ancount (rr_rdata rr + rr_rdlength rr)
    end
  end.

(** The answers that were decoded. *)
Definition decoded (outs : list (result RecordHeader)) : list RecordHeader :=
  outs ≫= λ out, match out with Ret rr _ => [rr] | Err _ => [] end.

(** The candidate and the flag after the answers [rrs], taken in order. *)
Definition candidate (buf : list byte) (sender : list byte)
    (rrs : list RecordHeader) : DeviceInfo * bool :=
  foldl (λ c rr, apply_record buf rr c.1 c.2)
        ({| name := []; ip := sender; txtRecords := ∅ |}, false) rrs.

End Buffer.

(** ** addDNSName (lines 350-373) and the query of sendQuery (lines 309-324) *)

(** [s.find(c, pos)]. *)
Definition find_char_from (c : byte) (s : list byte) (pos : nat) : option nat :=
  (λ k, pos + k) <$> find_char c (drop pos s).

(** [s.substr(pos, n)]. *)
Definition substr (s : list byte) (pos n : nat) : list byte :=
  take n (drop pos s).

(** [packet.push_back(static_cast<uint8_t>(label.length()));
     packet.insert(packet.end(), label.begin(), label.end())]. *)
Definition push_label (packet label : list byte) : list byte :=
  packet ++ u8 (N.of_nat (length label)) :: label.

(** The [while] loop of [addDNSName] and the code after it, with the locals
    [start] and [end].  Every iteration passes one dot of [name], so the
    counter [n], started at [length name], never cuts the loop short. *)
Fixpoint addDNSName_loop (n : nat) (packet name : list byte) (start : nat)
    (end_ : option nat) : list byte :=
  match end_, n with
  | Some e, S n =>
    addDNSName_loop n (push_label packet (substr name start (e - start))) name
      (e + 1) (find_char_from dot name (e + 1))
  | _, _ =>
    let label := drop start name in
    (if decide (label = []) then packet else push_label packet label) ++ [x00]
  end.

Definition addDNSName (packet name : list byte) : list byte :=
  addDNSName_loop (length name) packet name 0 (find_char_from dot name 0).

Record DNSHeader := {
  id : N;
  flags : N;
  qdcount : N;
  ancount : N;
  nscount : N;
  arcount : N;
}.

(** The two bytes in memory of a [uint16_t] that holds [htons(v)]. *)
Definition htons (v : N) : list byte := [u8 (N.shiftr v 8); u8 v].

(** The bytes of a header whose fields were all set through [htons]
    (a field left at 0 has the same bytes). *)
Definition header_bytes (h : DNSHeader) : list byte :=
  htons (id h) ++ htons (flags h) ++ htons (qdcount h) ++
  htons (ancount h) ++ htons (nscount h) ++ htons (arcount h).

(** The vector [query] that [sendQuery] hands to [sendto]. *)
Definition build_query (serviceType : list byte) : list byte :=
  let header := {| id := 0; flags := 0x0100; qdcount := 1;
                   ancount := 0; nscount := 0; arcount := 0 |} in
  let query := header_bytes header in
  let query := addDNSName query serviceType in
  let query := query ++ htons 12 in
  query ++ htons 1.

(** *** Names as sequences of labels *)

(** The labels written one after the other with a dot in between. *)
Fixpoint join_dots (labels : list (list byte)) : list byte :=
  match labels with
  | [] => []
  | [l] => l
  | l :: ls => l ++ dot :: join_dots ls
  end.

(** The length-prefixed labels of RFC 1035, without the final zero. *)
Definition labels_bytes (labels : list (list byte)) : list byte :=
  labels ≫= λ l, u8 (N.of_nat (length l)) :: l.

(** What [addDNSName] writes for the dotted name with the pieces [ls]
    and, after the last dot, the piece [last]: each piece of [ls] after its
    length, [last] likewise unless it is empty, and a zero byte. *)
Definition name_bytes (ls : list (list byte)) (last : list byte) : list byte :=
  labels_bytes ls ++
  (if decide (last = []) then [] else u8 (N.of_nat (length last)) :: last) ++
  [x00].

(** A label of a dotted name: between 1 and 63 bytes, none of them a dot
    or NUL. *)
Definition label_ok (l : list byte) : Prop :=
  1 ≤ length l ∧ length l ≤ 63 ∧ (dot ∉ l) ∧ (x00 ∉ l).

(** ** startDiscovery (lines 172-272) and stopDiscovery (lines 274-299) *)

(** The calls that leave the process, in the order they are made. *)
Inductive event : Type :=
  | CallSocket
  | CallReuseAddr (fd : nat)
  | CallBind (fd : nat)
  | CallJoinGroup (fd : nat)
  | CallSendto (fd : nat) (payload : list byte)
  | CallClose (fd : nat)
  | ThreadSpawn
  | ThreadJoin.

(** What the operating system answers to the calls of [startDiscovery]:
    the descriptor of [socket] ([None] for [INVALID_SOCKET]) and whether
    each later call succeeds. *)
Record Network := {
  net_socket : option nat;
  net_reuseaddr : bool;
  net_bind : bool;
  net_join : bool;
  net_sendto : bool;
}.

(** The data members of [DeviceDiscovery::Impl]; [receiveThread] is
    whether the thread is joinable. *)
Record Impl := {
  running : bool;
  socket_ : option nat;
  receiveThread : bool;
  discoveredDevices : list DeviceInfo;
}.

(** The state after the constructor. *)
Definition Impl_init : Impl :=
  {| running := false; socket_ := None; receiveThread := false;
     discoveredDevices := [] |}.

Definition set_socket (st : Impl) (s : option nat) : Impl :=
  {| running := running st; socket_ := s; receiveThread := receiveThread st;
     discoveredDevices := discoveredDevices st |}.

Definition sendQuery (net : Network) (fd : nat) (serviceType : list byte)
    : bool * list event :=
  (net_sendto net, [CallSendto fd (build_query serviceType)]).

Definition startDiscovery (net : Network) (serviceType : list byte) (st : Impl)
    : bool * Impl * list event :=
  if running st then (false, st, [])
  else
    match net_socket net with
    | None => (false, set_socket st None, [CallSocket])
    | Some fd =>
      let st := set_socket st (Some fd) in
      if negb (net_reuseaddr net) then
        (false, st, [CallSocket; CallReuseAddr fd; CallClose fd])
      else if negb (net_bind net) then
        (false, st, [CallSocket; CallReuseAddr fd; CallBind fd; CallClose fd])
      else if negb (net_join net) then
        (false, st, [CallSocket; CallReuseAddr fd; CallBind fd; CallJoinGroup fd;
                     CallClose fd])
      else
        let '(sent, ev) := sendQuery net fd serviceType in
        if negb sent then
          (false, st, [CallSocket; CallReuseAddr fd; CallBind fd; CallJoinGroup fd]
                      ++ ev ++ [CallClose fd])
        else
          (true,
           {| running := true; socket_ := Some fd; receiveThread := true;
              discoveredDevices := discoveredDevices st |},
           [CallSocket; CallReuseAddr fd; CallBind fd; CallJoinGroup fd]
             ++ ev ++ [ThreadSpawn])
    end.

Definition stopDiscovery (st : Impl) : Impl * list event :=
  if negb (running st) then (st, [])
  else
    (({| running := false; socket_ := None; receiveThread := false;
         discoveredDevices := discoveredDevices st |}),
     match socket_ st with
     | Some fd => [CallClose fd]
     | None => []
     end ++ (if receiveThread st then [ThreadJoin] else [])).

(** ** Concrete inputs *)

(** A device of the target service, announced from 192.168.1.20 with
    the attribute [u=abc]. *)
Definition tv : DeviceInfo :=
  {| name := str "tv._leboremote._tcp.local"; ip := str "192.168.1.20";
     txtRecords := {[ str "u" := str "abc" ]} |}.

(** A running service that has discovered [tv]. *)
Definition running_state : Impl :=
  {| running := true; socket_ := Some 3; receiveThread := true;
     discoveredDevices := [tv] |}.

(** A network on which every call succeeds. *)
Definition good_network : Network :=
  {| net_socket := Some 4; net_reuseaddr := true; net_bind := true;
     net_join := true; net_sendto := true |}.

Definition box : DeviceInfo :=
  {| name := str "box._leboremote._tcp.local"; ip := str "192.168.1.21";
     txtRecords := ∅ |}.

(** The device [tv] announced again from another address. *)
Definition tv_moved : DeviceInfo :=
  {| name := str "tv._leboremote._tcp.local"; ip := str "192.168.1.30";
     txtRecords := {[ str "a" := str "42" ]} |}.

(** The device [tv] announced again without attributes. *)
Definition tv_bare : DeviceInfo :=
  {| name := str "tv._leboremote._tcp.local"; ip := str "192.168.1.30";
     txtRecords := ∅ |}.

(** A name at offset 3 whose length byte is 0x40, after the name [a]. *)
Definition one_bit_buffer : list byte := u8 1 :: str "a" ++ [x00; x40; x00].

(** A pointer at offset 0 that leads to offset 0. *)
Definition pointer_loop : list byte := [xc0; x00].

(** The name [b] followed by a pointer to the name [a], and a pointer to
    the name [b]. *)
Definition chained_buffer : list byte :=
  u8 1 :: str "a" ++ [x00; u8 1] ++ str "b" ++ [xc0; x00; xc0; x03].

(** A response of 13 bytes that announces one answer, whose name is the
    single byte 0xC0. *)
Definition short_pointer_datagram : list byte :=
  [x00; x00; x84; x00; x00; x00; x00; x01; x00; x00; x00; x00; xc0].

(** A TXT record for the name [tv._leboremote._tcp.local] with the one
    entry [u=abc]: name, type 16, class 1, TTL 0, length 6, data. *)
Definition tv_txt_record : list byte :=
  addDNSName [] (str "tv._leboremote._tcp.local") ++
  htons 16 ++ htons 1 ++ htons 0 ++ htons 0 ++ htons 6 ++ u8 5 :: str "u=abc".

Definition response_header (answers : N) : list byte :=
  header_bytes {| id := 0; flags := 0x8400; qdcount := 0; ancount := answers;
                  nscount := 0; arcount := 0 |}.

(** A response with two answers: the TXT record above, which announces
    [tv], then a record whose name is a compression pointer to offset 255,
    past the end of the message. *)
Definition good_then_bad_datagram : list byte :=
  response_header 2 ++ tv_txt_record ++ [xc0; xff].

(** A response whose only answer has for name a compression pointer to
    offset 12, where that pointer itself is. *)
Definition pointer_loop_datagram : list byte :=
  response_header 1 ++ [xc0; x0c].

(** A response with the TXT record above as its only answer. *)
Definition tv_datagram : list byte := response_header 1 ++ tv_txt_record.

(** The same record announced with the entries [novalue] and [a=42]. *)
Definition tv_update_datagram : list byte :=
  response_header 1 ++
  addDNSName [] (str "tv._leboremote._tcp.local") ++
  htons 16 ++ htons 1 ++ htons 0 ++ htons 0 ++ htons 13 ++
  u8 7 :: str "novalue" ++ u8 4 :: str "a=42".

(** A response with three answers of which the first is a pointer past
    the end of the message and the last the TXT record above. *)
Definition bad_then_good_datagram : list byte :=
  response_header 3 ++ [xc0; xff] ++ tv_txt_record.

(** A pointer that leads forward, to the name [a] at offset 2. *)
Definition forward_pointer_buffer : list byte := [xc0; x02; x01; x61; x00].

(** A response of 13 bytes with the name [a] at offset 8, whose last byte
    is the first byte of a compression pointer. *)
Definition stale_pointer_datagram : list byte :=
  [x00; x00; x84; x00; x00; x00; x00; x01; x01; x61; x00; x00; xc0].

(** A query for the target service, as [sendQuery] builds it. *)
Definition query_datagram : list byte := build_query target_service.

(** ** Further inputs of the decoders *)

(** A compression pointer to offset [o] as RFC 1035 writes it: the two top
    bits set, then the 14 bits of the offset. *)
Definition pointer_bytes (o : nat) : list byte :=
  [u8 (0xC0 + N.of_nat o / 256); u8 (N.of_nat o)].

(** ** MDNSBrowser::parseTXTRecord (mdns_browser.cpp, lines 94-114)

    The TXT decoder of the DNS-SD browser.  It differs from [parseTXT] in
    what it does with an entry that is longer than what is left: it skips
    the entry and moves the cursor on by the declared length.  The counter
    [n] plays the part it plays in [parseTXT_loop]. *)
Fixpoint parseTXTRecord_loop (n : nat) (txtRecord : list byte) (ptr : nat)
    (result : gmap (list byte) (list byte)) : gmap (list byte) (list byte) :=
  match n with
  | O => result
  | S n =>
    match txtRecord !! ptr with
    | None => result
    | Some len =>
      let ptr := S ptr in
      let result :=
        if decide (ptr + nval len ≤ length txtRecord) then
          let record := take (nval len) (drop ptr txtRecord) in
          match find_char equals record with
          | Some pos => <[take pos record := drop (S pos) record]> result
          | None => result
          end
        else result in
      parseTXTRecord_loop n txtRecord (ptr + nval len) result
    end
  end.

Definition parseTXTRecord (txtRecord : list byte) : gmap (list byte) (list byte) :=
  parseTXTRecord_loop (length txtRecord) txtRecord 0 ∅.

(** The TXT entry for a key and its value. *)
Definition key_value (kv : list byte * list byte) : txt_entry :=
  KeyValue kv.1 kv.2.

(** The TXT payload that carries the attributes of a map. *)
Definition attributes_bytes (m : gmap (list byte) (list byte)) : list byte :=
  txt_bytes (key_value <$> map_to_list m).

(** ** Records and responses as a responder writes them *)

(** A resource record: the name as labels with the final zero, then type,
    class, TTL and data length, big-endian, then the data. *)
Definition record_bytes (labels : list (list byte)) (type class ttl : N)
    (rdata : list byte) : list byte :=
  labels_bytes labels ++ [x00] ++
  htons type ++ htons class ++ htons (N.shiftr ttl 16) ++ htons ttl ++
  htons (N.of_nat (length rdata)) ++ rdata.

(** A message with no question and one answer, a TXT record. *)
Definition txt_response (h_id h_flags : N) (labels : list (list byte)) (ttl : N)
    (entries : list txt_entry) : list byte :=
  header_bytes {| id := h_id; flags := h_flags; qdcount := 0; ancount := 1;
                  nscount := 0; arcount := 0 |} ++
  record_bytes labels 16 1 ttl (txt_bytes entries).

(** ** addDevice (device_discovery.cpp, lines 686-702)

    [std::find] compares with [DeviceInfo::operator==], that is by name;
    an entry that is found takes the attributes of the device and keeps
    its address. *)
Definition addDevice (discoveredDevices : list DeviceInfo) (device : DeviceInfo)
    : list DeviceInfo :=
  match list_find (λ d, name d = name device) discoveredDevices with
  | None => discoveredDevices ++ [device]
  | Some (index, it) =>
    <[index := {| name := name it; ip := ip it;
                  txtRecords := txtRecords device |}]> discoveredDevices
  end.

(** ** getDiscoveredDevices (lines 302-306): a copy of the list. *)
Definition getDiscoveredDevices (st : Impl) : list DeviceInfo :=
  discoveredDevices st.

(** ** The service over time

    One datagram handed to [parseMDNSResponse] by the receive thread
    (lines 249-267), when the call returns without leaving the
    datagram. *)
Definition receive (fuel : nat) (data sender : list byte) (st : Impl)
    : option (Impl * list DeviceInfo) :=
  match parseMDNSResponse fuel data sender (discoveredDevices st) with
  | Some (Processed devs calls) =>
    Some ({| running := running st; socket_ := socket_ st;
             receiveThread := receiveThread st; discoveredDevices := devs |}, calls)
  | _ => None
  end.

(** The states that calls of [startDiscovery] and [stopDiscovery] and
    datagrams received while the service runs lead to from the state after
    the constructor. *)
Inductive reachable : Impl → Prop :=
  | reachable_init : reachable Impl_init
  | reachable_start st net serviceType :
      reachable st → reachable (startDiscovery net serviceType st).1.2
  | reachable_stop st :
      reachable st → reachable (stopDiscovery st).1
  | reachable_receive st fuel data sender st' calls :
      reachable st → running st = true →
      receive fuel data sender st = Some (st', calls) → reachable st'.

(** A message with no question and two answers: a record of any type,
    then a TXT record. *)
Definition two_answer_response (h_id h_flags : N)
    (labels1 : list (list byte)) (type1 class1 ttl1 : N) (rdata1 : list byte)
    (labels2 : list (list byte)) (ttl2 : N) (entries : list txt_entry)
    : list byte :=
  header_bytes {| id := h_id; flags := h_flags; qdcount := 0; ancount := 2;
                  nscount := 0; arcount := 0 |} ++
  record_bytes labels1 type1 class1 ttl1 rdata1 ++
  record_bytes labels2 16 1 ttl2 (txt_bytes entries).

(** ** The ESP32 client (esp32/main/mdns/mdns_discovery.cc)

    [MDNSDiscovery] hands the query to the resolver of the platform and
    copies the answers it gets back.  An answer is a [mdns_result_t] of the
    resolver, of which the code reads [hostname], [instance_name], the TXT
    items and [next]; the chain of answers is a list here, a null
    [hostname] or [instance_name] is [None], and the key and the value of
    a TXT item are strings. *)

Module Esp32.

Record mdns_txt_item_t : Type := {
  key : list byte;
  value : list byte;
}.

Record mdns_result_t : Type := {
  hostname : option (list byte);
  instance_name : option (list byte);
  txt : list mdns_txt_item_t;
}.

(** [struct MDNSDevice] (esp32/mdns/mdns_discovery.h, lines 12-19); [port]
    has no initialiser and [None] is the value it has never been given. *)
Record MDNSDevice : Type := {
  name : list byte;
  hostname_ : list byte;
  ip : list byte;
  uid : list byte;
  appId : list byte;
  port : option N;
}.

(** The body of the loop over the TXT items (lines 90-99). *)
Definition read_txt (device : MDNSDevice) (item : mdns_txt_item_t) : MDNSDevice :=
  if decide (key item = str "u") then
    {| name := name device; hostname_ := hostname_ device; ip := ip device;
       uid := value item; appId := appId device; port := port device |}
  else if decide (key item = str "a") then
    {| name := name device; hostname_ := hostname_ device; ip := ip device;
       uid := uid device; appId := value item; port := port device |}
  else device.

(** [MDNSDevice device;] with the two names assigned. *)
Definition named_device (h n : list byte) : MDNSDevice :=
  {| name := n; hostname_ := h; ip := []; uid := []; appId := []; port := None |}.

(** [parse_mdns_response] (lines 64-105).  Both [continue] statements go
    back to the test of the loop with [result] as it was; [fuel] counts
    the passes through the loop. *)
Fixpoint parse_mdns_response (fuel : nat) (result : list mdns_result_t)
    (discovered_devices_ : list MDNSDevice) : option (list MDNSDevice) :=
  match fuel with
  | O => None
  | S fuel =>
    match result with
    | [] => Some discovered_devices_
    | r :: next =>
      match hostname r with
      | None => parse_mdns_response fuel result discovered_devices_
      | Some h =>
        match instance_name r with
        | None => parse_mdns_response fuel result discovered_devices_
        | Some n =>
          let device := foldl read_txt (named_device h n) (txt r) in
          parse_mdns_response fuel next (discovered_devices_ ++ [device])
        end
      end
    end
  end.

Definition ESP_OK : Z := 0.

(** [start_discovery] (lines 29-52); [query] is what [mdns_query_ptr]
    returns and stores in [results].  The result is the returned code and
    the list of devices. *)
Definition start_discovery (fuel : nat) (query : Z * list mdns_result_t)
    (discovered_devices_ : list MDNSDevice) : option (Z * list MDNSDevice) :=
  let discovered_devices_ : list MDNSDevice := [] in
  let '(err, results) := query in
  if decide (err ≠ ESP_OK) then Some (err, discovered_devices_)
  else
    match results with
    | [] => Some (ESP_OK, discovered_devices_)
    | _ :: _ =>
      devices ← parse_mdns_response fuel results discovered_devices_;
      Some (ESP_OK, devices)
    end.

(** [printf("%lu", n)]: the decimal digits of [n], the most significant
    first; [fuel] bounds the number of digits. *)
Fixpoint decimal_from (fuel : nat) (n : N) (acc : list byte) : list byte :=
  match fuel with
  | O => acc
  | S fuel =>
    let acc := u8 (48 + n mod 10) :: acc in
    if (n <? 10)%N then acc else decimal_from fuel (n / 10) acc
  end.

Definition decimal (n : N) : list byte := decimal_from 20 n [].

(** [resolve_mdns_host] (lines 107-130); [query] is what [mdns_query_a]
    returns and stores in [addr.addr].  The result is the string
    returned. *)
Definition resolve_mdns_host (query : Z * N) : list byte :=
  let '(err, addr) := query in
  if decide (err ≠ 0%Z) then []
  else
    decimal (N.land addr 0xff) ++ [dot] ++
    decimal (N.land (N.shiftr addr 8) 0xff) ++ [dot] ++
    decimal (N.land (N.shiftr addr 16) 0xff) ++ [dot] ++
    decimal (N.land (N.shiftr addr 24) 0xff).

(** An answer the loop of [parse_mdns_response] can copy, and the device
    the loop builds from it. *)
Definition named (r : mdns_result_t) : Prop :=
  is_Some (hostname r) ∧ is_Some (instance_name r).

Definition device_of (r : mdns_result_t) : MDNSDevice :=
  foldl read_txt
    (named_device (default [] (hostname r)) (default [] (instance_name r)))
    (txt r).

End Esp32.

(** An answer of the resolver with both names and two TXT items, and one
    without an instance name. *)
Definition lamp_result : Esp32.mdns_result_t :=
  {| Esp32.hostname := Some (str "lamp-host");
     Esp32.instance_name := Some (str "lamp");
     Esp32.txt := [ {| Esp32.key := str "u"; Esp32.value := str "42" |};
                    {| Esp32.key := str "a"; Esp32.value := str "7" |} ] |}.

Definition nameless_result : Esp32.mdns_result_t :=
  {| Esp32.hostname := Some (str "ghost-host");
     Esp32.instance_name := None;
     Esp32.txt := [] |}.

(** ** Inputs of the further properties *)

(** The labels of the name of [tv], and the entry of its TXT record. *)
Definition tv_labels : list (list byte) :=
  [str "tv"; str "_leboremote"; str "_tcp"; str "local"].

Definition tv_entries : list txt_entry := [KeyValue (str "u") (str "abc")].

(** The labels of another name, outside the target service. *)
Definition printer_labels : list (list byte) := [str "printer"; str "local"].

(** The data of an SRV record: priority, weight, port 8080 and the root
    name. *)
Definition srv_rdata : list byte := [x00; x00; x00; x00; x1f; x90; x00].

(** The name [local] with its final zero. *)
Definition local_name : list byte := labels_bytes [str "local"] ++ [x00].

(** A network on which [bind] fails. *)
Definition bind_fails_network : Network :=
  {| net_socket := Some 4; net_reuseaddr := true; net_bind := false;
     net_join := true; net_sendto := true |}.

(** The service started on [good_network], before and after it has
    received [tv_datagram] from the address of [tv]. *)
Definition started_state : Impl :=
  {| running := true; socket_ := Some 4; receiveThread := true;
     discoveredDevices := [] |}.

Definition discovering_state : Impl :=
  {| running := true; socket_ := Some 4; receiveThread := true;
     discoveredDevices := [tv] |}.

(** * Properties *)

(** ** The decoders on small inputs *)

Example parse_plain :
  parseDNSName 5 (u8 1 :: str "a" ++ u8 2 :: str "bc" ++ [x00]) 0
  = Some (Ret (str "a.bc") 6).
Proof. reflexivity. Qed.

Example parse_chain :
  parseDNSName 9 chained_buffer 7 = Some (Ret (str "b.a") 9).
Proof. reflexivity. Qed.

Example parseTXT_two :
  parseTXT (u8 5 :: str "u=abc" ++ u8 7 :: str "novalue" ++ u8 4 :: str "a=42") ∅
  = <[str "a" := str "42"]> (<[str "u" := str "abc"]> ∅).
Proof. reflexivity. Qed.

Example addDNSName_service :
  addDNSName [] (str "_x._tcp.local")
  = u8 2 :: str "_x" ++ u8 4 :: str "_tcp" ++ u8 5 :: str "local" ++ [x00].
Proof. reflexivity. Qed.

(** A response that announces a device adds it and calls the observer. *)
Example response_adds_device :
  parseMDNSResponse 6 tv_datagram (str "192.168.1.20") []
  = Some (Processed [tv] [tv]).
Proof. reflexivity. Qed.

(** A later response for the same name replaces address and attributes. *)
Example response_updates_device :
  parseMDNSResponse 6 tv_update_datagram (str "192.168.1.30") [tv]
  = Some (Processed [tv_moved] [tv_moved]).
Proof. reflexivity. Qed.

(** A query changes nothing. *)
Example query_is_ignored :
  parseMDNSResponse 6 query_datagram (str "192.168.1.20") [tv]
  = Some (Processed [tv] []).
Proof. reflexivity. Qed.

(** ** Lifecycle: startDiscovery and stopDiscovery *)

(** A first start on a network where every call succeeds. *)
Example startDiscovery_fresh :
  startDiscovery good_network target_service Impl_init
  = (true,
     {| running := true; socket_ := Some 4; receiveThread := true;
        discoveredDevices := [] |},
     [CallSocket; CallReuseAddr 4; CallBind 4; CallJoinGroup 4;
      CallSendto 4 (build_query target_service); ThreadSpawn]).
Proof. reflexivity. Qed.

Section Lifecycle.

Variable net : Network.
Variable serviceType : list byte.

(** C10: a call of startDiscovery while discovery is running returns false
    and changes nothing: the state (running flag, socket, thread, device
    list) is the one before the call and no call leaves the process (no
    socket is created, no query is sent, no thread is spawned). *)
Theorem startDiscovery_while_running (st : Impl) :
  running st = true →
  startDiscovery net serviceType st = (false, st, []).
Proof.
  intros Hrun. unfold startDiscovery. by rewrite Hrun.
Qed.

(** stopDiscovery never touches the device list. *)
Lemma stopDiscovery_devices (st : Impl) :
  discoveredDevices (stopDiscovery st).1 = discoveredDevices st.
Proof.
  unfold stopDiscovery. by destruct (running st).
Qed.

(** Neither does startDiscovery, whatever the network answers. *)
Lemma startDiscovery_devices (st : Impl) :
  discoveredDevices (startDiscovery net serviceType st).1.2 = discoveredDevices st.
Proof.
  unfold startDiscovery, sendQuery.
  destruct (running st); [done|].
  destruct (net_socket net) as [fd|]; [|done].
  destruct (net_reuseaddr net), (net_bind net), (net_join net),
    (net_sendto net); done.
Qed.

End Lifecycle.

(** C10 at a running service with one device. *)
Lemma startDiscovery_while_running_witness :
  running running_state = true ∧
  startDiscovery good_network target_service running_state
  = (false, running_state, []).
Proof.
  split; [reflexivity|].
  apply (startDiscovery_while_running good_network target_service running_state).
  reflexivity.
Defined.

(** C5, at a state with one discovered device: after stopDiscovery the
    device list still holds the device, and the startDiscovery that follows
    succeeds and begins with it. *)
Theorem stopDiscovery_keeps_devices :
  let stopped := (stopDiscovery running_state).1 in
  let '(ok, restarted, _) := startDiscovery good_network target_service stopped in
  running stopped = false ∧
  discoveredDevices stopped = discoveredDevices running_state ∧
  ok = true ∧
  discoveredDevices restarted = discoveredDevices running_state ∧
  discoveredDevices restarted ≠ [].
Proof.
  cbn. repeat split; discriminate.
Qed.

(** ** The query of sendQuery *)

Lemma find_char_from_bounds (c : byte) (nm : list byte) (start e : nat) :
  find_char_from c nm start = Some e → start ≤ e ∧ e < length nm.
Proof.
  unfold find_char_from, find_char. intros He.
  destruct (list_find _ (drop start nm)) as [[i x]|] eqn:Hfind; [|done].
  injection He as <-. apply list_find_Some in Hfind as (Hi & _).
  apply lookup_lt_Some in Hi. rewrite length_drop in Hi. cbn. lia.
Qed.

(** The counter of [addDNSName_loop] never runs out: any count from the
    number of bytes left of the name gives the same packet. *)
Lemma addDNSName_loop_counter (nm : list byte) (n : nat) : ∀ n' packet start,
  length nm - start ≤ n → length nm - start ≤ n' →
  addDNSName_loop n packet nm start (find_char_from dot nm start)
  = addDNSName_loop n' packet nm start (find_char_from dot nm start).
Proof.
  induction n as [|n IH]; intros n' packet start Hn Hn';
    destruct (find_char_from dot nm start) as [e|] eqn:He;
    try apply find_char_from_bounds in He as Hbounds.
  - lia.
  - by destruct n'.
  - destruct n' as [|n']; [lia|]. cbn [addDNSName_loop]. apply IH; lia.
  - by destruct n'.
Qed.

Lemma addDNSName_loop_app (n : nat) (packet nm : list byte) (start : nat)
    (e : option nat) :
  addDNSName_loop n packet nm start e = packet ++ addDNSName_loop n [] nm start e.
Proof.
  revert packet start e.
  induction n as [|n IH]; intros packet start [e|]; cbn [addDNSName_loop].
  - case_decide; unfold push_label; by rewrite <- ?(assoc_L (++)).
  - case_decide; unfold push_label; by rewrite <- ?(assoc_L (++)).
  - rewrite IH. rewrite (IH (push_label [] _)).
    unfold push_label. by rewrite <- !(assoc_L (++)).
  - case_decide; unfold push_label; by rewrite <- ?(assoc_L (++)).
Qed.

Lemma addDNSName_app (packet nm : list byte) :
  addDNSName packet nm = packet ++ addDNSName [] nm.
Proof. apply addDNSName_loop_app. Qed.

(** ** Reconciliation *)

Section Reconcile.

Implicit Types (devs : list DeviceInfo) (cand d : DeviceInfo).

Lemma reconcile_added devs cand :
  (∀ d, d ∈ devs → name d ≠ name cand) →
  reconcile devs cand = (devs ++ [cand], [cand]).
Proof.
  intros Hnone. unfold reconcile.
  destruct (list_find _ devs) as [[i d]|] eqn:Hfind; [|done].
  apply list_find_Some in Hfind as (Hi & Hd & _).
  destruct (Hnone d); [|done]. by eapply list_elem_of_lookup_2.
Qed.

Lemma reconcile_found devs cand i d :
  first_named devs cand i d →
  reconcile devs cand =
    if decide (txtRecords cand = ∅) then (devs, [])
    else (<[i := refreshed d cand]> devs, [refreshed d cand]).
Proof.
  intros (Hi & Hd & Hfirst). unfold reconcile.
  assert (list_find (λ d, name d = name cand) devs = Some (i, d)) as ->; [|done].
  apply list_find_Some. split_and!; [done..|]. intros j y ??. by eapply Hfirst.
Qed.

(** C4: reconciling a candidate with the device list, looked up by name.
    No entry of that name: the candidate is appended and the observer is
    called once, with the candidate.  An entry of that name and the
    candidate has attributes: the entry keeps its name and takes the
    candidate's address and attributes, every other entry and the length
    of the list are unchanged, and the observer is called once, with the
    updated entry.  An entry of that name and the candidate has no
    attributes: the list is unchanged and the observer is not called. *)
Theorem reconcile_outcomes devs cand :
  ((∀ d, d ∈ devs → name d ≠ name cand) →
     reconcile devs cand = (devs ++ [cand], [cand])) ∧
  (∀ i d, first_named devs cand i d → txtRecords cand ≠ ∅ →
     let '(devs', calls) := reconcile devs cand in
     devs' !! i = Some (refreshed d cand) ∧
     (∀ j, j ≠ i → devs' !! j = devs !! j) ∧
     length devs' = length devs ∧
     calls = [refreshed d cand]) ∧
  (∀ i d, first_named devs cand i d → txtRecords cand = ∅ →
     reconcile devs cand = (devs, [])).
Proof.
  split_and!.
  - apply reconcile_added.
  - intros i d Hfound Hattrs. rewrite (reconcile_found _ _ _ _ Hfound).
    rewrite decide_False by done. destruct Hfound as (Hi & _).
    split_and!.
    + apply list_lookup_insert_eq. by eapply lookup_lt_Some.
    + intros j Hj. by apply list_lookup_insert_ne.
    + apply length_insert.
    + done.
  - intros i d Hfound Hattrs. rewrite (reconcile_found _ _ _ _ Hfound).
    by rewrite decide_True.
Qed.

(** No two entries of the list share a name, and reconciliation keeps it
    that way. *)
Lemma reconcile_NoDup devs cand :
  NoDup (name <$> devs) → NoDup (name <$> (reconcile devs cand).1).
Proof.
  intros Hnd. unfold reconcile.
  destruct (list_find _ devs) as [[i d]|] eqn:Hfind.
  - apply list_find_Some in Hfind as (Hi & Hd & _).
    case_decide; [done|]. cbn.
    rewrite list_fmap_insert. cbn.
    rewrite list_insert_id; [done|]. by rewrite list_lookup_fmap, Hi.
  - cbn. rewrite fmap_app. cbn.
    apply NoDup_app. split_and!; [done| |apply NoDup_singleton].
    intros x Hx ->%list_elem_of_singleton.
    apply list_elem_of_fmap in Hx as (d & Hname & Hd).
    eapply list_find_None in Hfind. eapply Forall_forall in Hfind; [|done].
    by apply Hfind.
Qed.

(** Reconciliation never removes an entry: the names of the list are kept,
    in order, at the front of the new list. *)
Lemma reconcile_keeps_names devs cand :
  (name <$> devs) `prefix_of` (name <$> (reconcile devs cand).1).
Proof.
  unfold reconcile.
  destruct (list_find _ devs) as [[i d]|] eqn:Hfind.
  - apply list_find_Some in Hfind as (Hi & Hd & _).
    case_decide; [done|]. cbn.
    rewrite list_fmap_insert. cbn.
    rewrite list_insert_id; [done|]. by rewrite list_lookup_fmap, Hi.
  - cbn. rewrite fmap_app. by apply prefix_app_r.
Qed.

(** A datagram never removes an entry from the device list either. *)
Lemma parseMDNSResponse_keeps_names fuel data sender devs devs' calls :
  parseMDNSResponse fuel data sender devs = Some (Processed devs' calls) →
  (name <$> devs) `prefix_of` (name <$> devs').
Proof.
  unfold parseMDNSResponse. intros Hres.
  repeat (case_match || case_decide); simplify_eq; try done.
  unfold notify in *.
  repeat (case_match || case_decide); simplify_eq; try done.
  match goal with
  | H : reconcile ?d ?c = _ |- _ =>
      pose proof (reconcile_keeps_names d c) as Hkeep; by rewrite H in Hkeep
  end.
Qed.

End Reconcile.

(** C4 on a list of two devices: a new name, a known name with
    attributes, a known name without. *)
Lemma reconcile_outcomes_witness :
  reconcile [tv] box = ([tv; box], [box]) ∧
  (first_named [tv; box] tv_moved 0 tv ∧ txtRecords tv_moved ≠ ∅ ∧
   let '(devs', calls) := reconcile [tv; box] tv_moved in
   devs' !! 0 = Some (refreshed tv tv_moved) ∧
   (∀ j, j ≠ 0 → devs' !! j = [tv; box] !! j) ∧
   length devs' = 2 ∧ calls = [refreshed tv tv_moved]) ∧
  (first_named [tv; box] tv_bare 0 tv ∧ txtRecords tv_bare = ∅ ∧
   reconcile [tv; box] tv_bare = ([tv; box], [])).
Proof.
  assert (∀ cand, name cand = name tv → first_named [tv; box] cand 0 tv) as Hfirst.
  { intros cand Hname. split; [reflexivity|]. split; [by symmetry|].
    intros j d' _ Hj. lia. }
  assert (txtRecords tv_moved ≠ ∅) as Hattrs.
  { intros Heq. apply (f_equal (λ m, m !! str "a")) in Heq. discriminate Heq. }
  split; [|split].
  - apply (proj1 (reconcile_outcomes [tv] box)).
    intros d Hd. apply list_elem_of_singleton in Hd. subst d.
    intros Heq. discriminate Heq.
  - split; [by apply Hfirst|]. split; [exact Hattrs|].
    apply (proj1 (proj2 (reconcile_outcomes [tv; box] tv_moved)) 0 tv);
      [by apply Hfirst|exact Hattrs].
  - split; [by apply Hfirst|]. split; [reflexivity|].
    apply (proj2 (proj2 (reconcile_outcomes [tv; box] tv_bare)) 0 tv);
      [by apply Hfirst|reflexivity].
Defined.

(** ** Bytes *)

Lemma val_u8 (n : N) : val (u8 n) = (n mod 256)%N.
Proof.
  unfold val, u8.
  destruct (Byte.of_N (n mod 256)%N) as [b|] eqn:Hb.
  - by apply Byte.to_of_N.
  - apply Byte.of_N_None_iff in Hb.
    pose proof (N.mod_upper_bound n 256). lia.
Qed.

Lemma nval_u8 (n : nat) : n ≤ 255 → nval (u8 (N.of_nat n)) = n.
Proof.
  intros Hn. unfold nval. fold (val (u8 (N.of_nat n))). rewrite val_u8.
  rewrite N.mod_small by lia. lia.
Qed.

Lemma val_bound (b : byte) : (val b < 256)%N.
Proof. pose proof (Byte.to_N_bounded b). unfold val. lia. Qed.

Lemma find_char_None (c : byte) (s : list byte) :
  c ∉ s → find_char c s = None.
Proof.
  intros Hc. unfold find_char.
  destruct (list_find _ s) as [[i x]|] eqn:Hfind; [|done].
  apply list_find_Some in Hfind as (Hi & -> & _).
  destruct Hc. by eapply list_elem_of_lookup_2.
Qed.

Lemma find_char_first (c : byte) (s t : list byte) :
  c ∉ s → find_char c (s ++ c :: t) = Some (length s).
Proof.
  intros Hc. unfold find_char.
  assert (list_find (λ b, b = c) (s ++ c :: t) = Some (length s, c)) as ->; [|done].
  apply list_find_Some. split_and!.
  - by rewrite list_lookup_middle.
  - done.
  - intros j y Hj Hlt ->. rewrite lookup_app_l in Hj by done.
    destruct Hc. by eapply list_elem_of_lookup_2.
Qed.

(** ** The TXT decoder *)

Section TXT.

Implicit Types (m : gmap (list byte) (list byte)) (es : list txt_entry).

Lemma length_entry_bytes (e : txt_entry) :
  length (entry_bytes e) = S (length (entry_text e)).
Proof. done. Qed.

(** One complete entry at the cursor. *)
Lemma parseTXT_loop_entry n pre e rest m :
  entry_wf e →
  parseTXT_loop (S n) (pre ++ entry_bytes e ++ rest) (length pre) m
  = parseTXT_loop n ((pre ++ entry_bytes e) ++ rest)
      (length (pre ++ entry_bytes e)) (store m e).
Proof.
  intros [Hlen Heq]. cbn [parseTXT_loop]. unfold entry_bytes. cbn [app].
  rewrite list_lookup_middle by done.
  rewrite nval_u8 by done.
  rewrite decide_False by (rewrite !length_app; cbn; rewrite length_app; lia).
  replace (take _ (drop _ _)) with (entry_text e); cycle 1.
  { rewrite (cons_middle _ pre), (assoc_L (++)).
    rewrite drop_app_length' by (rewrite length_app; cbn; lia).
    by rewrite take_app_length. }
  rewrite <- (assoc_L (++)). cbn [app].
  replace (S (length pre) + length (entry_text e))
    with (length (pre ++ u8 (N.of_nat (length (entry_text e))) :: entry_text e))
    by (rewrite length_app; cbn; lia).
  f_equal. destruct e as [key value|text]; cbn [entry_text store] in *.
  - rewrite find_char_first by done.
    rewrite take_app_length.
    by rewrite (cons_middle _ key), (assoc_L (++)), drop_app_length'
      by (rewrite length_app; cbn; lia).
  - by rewrite find_char_None.
Qed.

Lemma parseTXT_loop_entries es : ∀ n pre tail m,
  Forall entry_wf es → cut_short tail →
  length (txt_bytes es ++ tail) ≤ n →
  parseTXT_loop n (pre ++ txt_bytes es ++ tail) (length pre) m = foldl store m es.
Proof.
  induction es as [|e es IH]; intros n pre tail m Hwf Htail Hn.
  - cbn. destruct n as [|n]; [done|]. cbn [parseTXT_loop].
    destruct tail as [|len rest].
    + by rewrite lookup_ge_None_2 by (rewrite length_app; cbn; lia).
    + rewrite list_lookup_middle by done.
      rewrite decide_True; [done|]. cbn in Htail. rewrite length_app. cbn. lia.
  - apply Forall_cons in Hwf as [He Hes].
    unfold txt_bytes in *. rewrite bind_cons in *.
    destruct n as [|n].
    { rewrite !length_app, length_entry_bytes in Hn. lia. }
    rewrite <- (assoc_L (++)).
    rewrite parseTXT_loop_entry by done.
    rewrite <- (assoc_L (++) pre).
    rewrite (assoc_L (++) pre). rewrite IH; [done..|].
    rewrite !length_app, length_entry_bytes in Hn. rewrite length_app. lia.
Qed.

(** C7: a TXT payload made of complete entries, followed by nothing or by
    an entry whose declared length exceeds what is left, decodes to the
    attributes obtained by storing the entries in order: every complete
    entry is visited; an entry is split at its first [=] (the key has no
    [=], the value is everything after it); an entry without [=] changes
    nothing and the entries after it are still decoded; a key stored twice
    keeps the later value; the cut-short entry and what follows it are
    dropped and the entries before it are kept. *)
Theorem parseTXT_entries es tail m :
  Forall entry_wf es → cut_short tail →
  parseTXT (txt_bytes es ++ tail) m = foldl store m es ∧
  (∀ es1 key value es2,
     es = es1 ++ KeyValue key value :: es2 →
     (∀ e, e ∈ es2 → entry_key e ≠ Some key) →
     parseTXT (txt_bytes es ++ tail) m !! key = Some value).
Proof.
  intros Hwf Htail.
  assert (parseTXT (txt_bytes es ++ tail) m = foldl store m es) as Hfold.
  { unfold parseTXT. by apply (parseTXT_loop_entries es _ []). }
  split; [done|].
  intros es1 key value es2 -> Hlater. rewrite Hfold.
  rewrite foldl_app. cbn.
  generalize (foldl store m es1). clear -Hlater. intros m.
  assert (<[key:=value]> m !! key = Some value) as Hm by apply lookup_insert_eq.
  revert Hm. generalize (<[key:=value]> m). clear m.
  induction es2 as [|e es2 IH]; intros m Hm; [done|].
  cbn. apply IH.
  - intros e' He'. apply Hlater. by right.
  - destruct e as [key' value'|text]; cbn; [|done].
    rewrite lookup_insert_ne; [done|].
    intros ->. by apply (Hlater (KeyValue key value')); [left|].
Qed.

(** Every payload is a sequence of complete entries followed by nothing
    or by a cut-short entry, so the statement above covers all payloads. *)
Lemma txt_payload_decomposes (data : list byte) :
  ∃ es tail, data = txt_bytes es ++ tail ∧ Forall entry_wf es ∧ cut_short tail.
Proof.
  remember (length data) as n eqn:Hn.
  revert data Hn. induction (lt_wf n) as [n _ IH]. intros data ->.
  destruct data as [|len rest]; [by exists [], []|].
  destruct (decide (length rest < nval len)) as [Hshort|Hfits].
  { by exists [], (len :: rest). }
  destruct (IH (length (drop (nval len) rest))
              ltac:(rewrite length_drop; cbn; lia) _ eq_refl)
    as (es & tail & Hrest & Hwf & Htail).
  set (text := take (nval len) rest).
  assert (length text = nval len) as Htext
    by (unfold text; rewrite length_take; lia).
  assert (u8 (N.of_nat (length text)) = len) as Hlen.
  { rewrite Htext. unfold nval. rewrite N2Nat.id. unfold u8.
    pose proof (Byte.to_N_bounded len).
    rewrite N.mod_small by lia. by rewrite Byte.of_to_N. }
  assert (length text ≤ 255) as Hbound.
  { rewrite Htext. unfold nval. pose proof (Byte.to_N_bounded len). lia. }
  assert (∃ e, entry_text e = text ∧ entry_wf e) as (e & He & Hewf).
  { destruct (list_find (λ b, b = equals) text) as [[sep c]|] eqn:Hfind.
    - apply list_find_Some in Hfind as (Hsep & -> & Hfirst).
      exists (KeyValue (take sep text) (drop (S sep) text)).
      assert (take sep text ++ equals :: drop (S sep) text = text) as Heq
        by by apply take_drop_middle.
      split; [done|]. split; [cbn; by rewrite Heq|].
      intros Hin. apply list_elem_of_lookup in Hin as [j Hj].
      apply lookup_take_Some in Hj as [Hj Hlt]. by eapply Hfirst.
    - exists (Bare text). split; [done|]. split; [done|].
      intros Hin. eapply list_find_None, Forall_forall in Hfind; [|done].
      by apply Hfind. }
  exists (e :: es), tail. split_and!; [|by constructor|done].
  unfold txt_bytes in *. rewrite bind_cons. unfold entry_bytes at 1.
  rewrite He, Hlen. cbn [app]. f_equal.
  rewrite <- (assoc_L (++)), <- Hrest. unfold text. by rewrite take_drop.
Qed.

End TXT.

(** C7 on a payload with a repeated key, an entry without [=], a value
    that holds a [=], and a last entry that announces 9 bytes and has 3. *)
Lemma parseTXT_entries_witness :
  let es := [KeyValue (str "u") (str "abc"); Bare (str "novalue");
             KeyValue (str "a") (str "4=2"); KeyValue (str "u") (str "xyz")] in
  let tail := u8 9 :: str "k=v" in
  Forall entry_wf es ∧ cut_short tail ∧
  parseTXT (txt_bytes es ++ tail) ∅ = foldl store ∅ es ∧
  parseTXT (txt_bytes es ++ tail) ∅ !! str "u" = Some (str "xyz") ∧
  parseTXT (txt_bytes es ++ tail) ∅ !! str "a" = Some (str "4=2").
Proof.
  intros es tail.
  assert (∀ (c : byte) (s : list byte), bool_decide (c ∈ s) = false → c ∉ s) as Hnot.
  { intros c s H. by apply bool_decide_eq_false in H. }
  assert (Forall entry_wf es) as Hwf.
  { repeat apply Forall_cons_2; try apply Forall_nil_2;
      (split; [cbn; lia | by apply Hnot]). }
  assert (cut_short tail) as Htail by (vm_compute; lia).
  destruct (parseTXT_entries es tail ∅ Hwf Htail) as [Hfold Hlast].
  split; [exact Hwf|]. split; [exact Htail|]. split; [exact Hfold|]. split.
  - apply (Hlast [KeyValue (str "u") (str "abc"); Bare (str "novalue");
                  KeyValue (str "a") (str "4=2")] (str "u") (str "xyz") []).
    + reflexivity.
    + intros e He. by apply elem_of_nil in He.
  - apply (Hlast [KeyValue (str "u") (str "abc"); Bare (str "novalue")]
             (str "a") (str "4=2") [KeyValue (str "u") (str "xyz")]).
    + reflexivity.
    + intros e He. apply list_elem_of_singleton in He. subst e. discriminate.
Defined.

(** ** The name decoder *)

Section Names.

Implicit Types (buf nm : list byte) (fuel ptr : nat).

(** The test [len & 0xC0] holds as soon as one of the two top bits is
    set, that is from 0x40 on. *)
Lemma is_pointer_from_0x40 (len : byte) :
  is_pointer len = true ↔ (0x40 ≤ val len)%N.
Proof.
  destruct len; cbv; split; intros H; try done; by destruct H.
Qed.

(** The offset is the low 6 bits of the first byte and the 8 bits of the
    second: 14 bits. *)
Lemma pointer_offset_value (len lo : byte) :
  pointer_offset len lo = N.to_nat ((val len mod 64) * 256 + val lo)%N.
Proof.
  unfold pointer_offset. f_equal.
  change 0x3F%N with (N.ones 6). rewrite N.land_ones, N.shiftl_mul_pow2.
  change (2 ^ 6)%N with 64%N. change (2 ^ 8)%N with 256%N.
  set (hi := (val len mod 64)%N).
  apply N.bits_inj. intros i.
  pose proof (val_bound lo) as Hlo.
  rewrite N.lor_spec.
  destruct (decide (i < 8)%N) as [Hi|Hi].
  - replace (hi * 256)%N with (hi * 2 ^ 8)%N by done.
    rewrite N.mul_pow2_bits_low by done. cbn.
    rewrite N.add_comm. rewrite <- (N.mod_pow2_bits_low _ 8 i) by done.
    rewrite <- (N.mod_pow2_bits_low (val lo + _) 8 i) by done.
    f_equal. change (2 ^ 8)%N with 256%N.
    rewrite N.Div0.mod_add. done.
  - replace (N.testbit (val lo) i) with false; cycle 1.
    { symmetry. apply N.bits_above_log2.
      destruct (decide (val lo = 0%N)) as [->|Hz]; [cbn; lia|].
      assert (N.log2 (val lo) < 8)%N; [|lia].
      apply N.log2_lt_pow2; [lia|]. done. }
    rewrite orb_false_r.
    replace i with (i - 8 + 8)%N by lia.
    replace (hi * 256)%N with (hi * 2 ^ 8)%N by done.
    rewrite N.mul_pow2_bits_add.
    rewrite <- (N.div_pow2_bits (hi * 2 ^ 8 + val lo)).
    f_equal. change (2 ^ 8)%N with 256%N.
    rewrite N.add_comm, N.div_add by done.
    rewrite N.div_small by done. done.
Qed.

Lemma pointer_offset_bound (len lo : byte) :
  (N.of_nat (pointer_offset len lo) < 0x4000)%N.
Proof.
  rewrite pointer_offset_value, N2Nat.id.
  pose proof (val_bound lo). pose proof (N.mod_upper_bound (val len) 64). lia.
Qed.

(** The pointer case of the loop, lines 577-605. *)
Lemma parseDNSName_from_pointer fuel buf ptr nm first len lo :
  buf !! ptr = Some len → is_pointer len = true →
  buf !! (S ptr) = Some lo →
  pointer_offset len lo < length buf →
  parseDNSName_from (S fuel) buf ptr nm first
  = match parseDNSName fuel buf (pointer_offset len lo) with
    | None => None
    | Some (Ret remainingName _) =>
        Some (Ret (append_label nm first remainingName) (ptr + 2))
    | Some (Err _) => Some (Err (S ptr))
    | Some (ReadPastEnd i) => Some (ReadPastEnd i)
    end.
Proof.
  intros Hlen Hptr Hlo Hoff. cbn [parseDNSName_from].
  rewrite Hlen, Hptr, Hlo. rewrite decide_False by lia.
  unfold parseDNSName. by replace (ptr + 2) with (S (S ptr)) by lia.
Qed.

(** When the name at the offset decodes, it is appended to the labels
    collected so far and the cursor ends two bytes after where the
    pointer began. *)
Lemma parseDNSName_pointer fuel buf ptr nm first len lo remainingName p :
  buf !! ptr = Some len → is_pointer len = true →
  buf !! (S ptr) = Some lo →
  pointer_offset len lo < length buf →
  parseDNSName fuel buf (pointer_offset len lo) = Some (Ret remainingName p) →
  parseDNSName_from (S fuel) buf ptr nm first
  = Some (Ret (append_label nm first remainingName) (ptr + 2)).
Proof.
  intros Hlen Hptr Hlo Hoff Hrec.
  by rewrite (parseDNSName_from_pointer _ _ _ _ _ len lo), Hrec.
Qed.

(** C8, at a length byte with only one of the two top bits set: 0x40 is
    below 0xC0 and its two top bits are 01, yet the decoder takes it for a
    compression pointer, to offset 0, and returns the name found there
    with the cursor two bytes further. *)
Theorem parseDNSName_one_bit_pointer :
  one_bit_buffer !! 3 = Some x40 ∧
  (val x40 < 0xC0)%N ∧
  N.land (val x40) 0xC0 = 0x40%N ∧
  is_pointer x40 = true ∧
  parseDNSName 3 one_bit_buffer 3 = Some (Ret (str "a") 5).
Proof.
  repeat split.
Qed.

(** C2, at a datagram whose last byte is 0xC0: the decoder takes the byte
    for the start of a compression pointer and dereferences the byte after
    it, which is at offset 13 of a datagram of 13 bytes. *)
Theorem parseMDNSResponse_reads_past_end :
  length short_pointer_datagram = 13 ∧
  parseDNSName 1 short_pointer_datagram 12 = Some (ReadPastEnd 13) ∧
  parseMDNSResponse 1 short_pointer_datagram (str "192.168.1.20") []
  = Some (OutOfBounds 13).
Proof.
  repeat split.
Qed.

(** A dereference outside the buffer is always the one of the second
    byte of a pointer whose first byte is the last byte of the buffer. *)
Lemma parseDNSName_read_past_end fuel : ∀ buf ptr nm first i,
  parseDNSName_from fuel buf ptr nm first = Some (ReadPastEnd i) →
  overread buf i.
Proof.
  unfold overread.
  induction fuel as [|fuel IH]; intros buf ptr nm first i; [done|].
  cbn [parseDNSName_from].
  destruct (buf !! ptr) as [len|] eqn:Hlen.
  2:{ unfold finish_name. by destruct nm. }
  destruct (is_pointer len) eqn:Hptr.
  - destruct (buf !! S ptr) as [lo|] eqn:Hlo.
    + case_decide; [done|].
      destruct (parseDNSName_from fuel buf _ [] true) as [[]|] eqn:Hrec; try done.
      intros [= <-]. by eapply IH.
    + intros [= <-]. apply lookup_ge_None in Hlo.
      apply lookup_lt_Some in Hlen as Hlt. split; [lia|].
      exists len. by replace (S ptr - 1) with ptr by lia.
  - case_decide; [unfold finish_name; by destruct nm|].
    case_decide; [done|]. apply IH.
Qed.

(** More fuel does not change a result. *)
Lemma parseDNSName_from_mono fuel : ∀ fuel' buf ptr nm first r,
  fuel ≤ fuel' →
  parseDNSName_from fuel buf ptr nm first = Some r →
  parseDNSName_from fuel' buf ptr nm first = Some r.
Proof.
  induction fuel as [|fuel IH]; intros fuel' buf ptr nm first r Hle; [done|].
  destruct fuel' as [|fuel']; [lia|]. cbn [parseDNSName_from].
  destruct (buf !! ptr) as [len|]; [|done].
  destruct (is_pointer len).
  - destruct (buf !! S ptr) as [lo|]; [|done].
    case_decide; [done|].
    destruct (parseDNSName_from fuel buf _ [] true) as [r'|] eqn:Hrec; [|done].
    by rewrite (IH fuel' _ _ _ _ r') by (done || lia).
  - case_decide; [done|]. case_decide; [done|]. apply IH. lia.
Qed.

(** The decoder started on a pointer that leads to itself has not
    returned after any number of steps. *)
Lemma pointer_loop_no_result fuel : ∀ nm first,
  parseDNSName_from fuel pointer_loop 0 nm first = None.
Proof.
  induction fuel as [|fuel IH]; intros nm first; [done|].
  rewrite (parseDNSName_from_pointer _ _ _ _ _ xc0 x00); [|done..|vm_compute; lia].
  unfold parseDNSName. change (pointer_offset xc0 x00) with 0. by rewrite IH.
Qed.

(** The same inside a response: the call of parseMDNSResponse has not
    returned after any number of steps. *)
Lemma pointer_loop_datagram_no_result fuel sender devs :
  parseMDNSResponse fuel pointer_loop_datagram sender devs = None.
Proof.
  assert (∀ nm first,
            parseDNSName_from fuel pointer_loop_datagram 12 nm first = None)
    as Hname.
  { induction fuel as [|fuel' IH]; intros nm first; [done|].
    rewrite (parseDNSName_from_pointer _ _ _ _ _ xc0 x0c);
      [|done..|vm_compute; lia].
    unfold parseDNSName. change (pointer_offset xc0 x0c) with 12.
    by rewrite IH. }
  unfold parseMDNSResponse.
  rewrite decide_False by (vm_compute; lia).
  change (get16 pointer_loop_datagram 2) with (Some 0x8400%N).
  change (get16 pointer_loop_datagram 4) with (Some 0%N).
  change (get16 pointer_loop_datagram 6) with (Some 1%N).
  cbn beta iota. rewrite decide_False by done.
  change (N.to_nat 0) with 0. change (N.to_nat 1) with 1.
  cbn [skip_questions parse_answers]. unfold parseRecordHeader, parseDNSName.
  by rewrite Hname.
Qed.

End Names.

(** ** Chains of compression pointers *)

Section Chains.

Variable buf : list byte.
Variable next : byte.

Implicit Types (nm : list byte) (first : bool).

Lemma pointer_after_bound k : ∀ ptr o,
  Buffer.pointer_after k buf next ptr = Some o → o < length buf.
Proof.
  induction k as [|k IH]; intros ptr o; [done|]. cbn [Buffer.pointer_after].
  destruct (buf !! ptr) as [len|]; [|done].
  destruct (is_pointer len).
  - case_decide; [done|]. intros [= <-]. lia.
  - case_decide; [done|]. case_decide; [done|]. apply IH.
Qed.

(** A call whose loop meets no pointer into the buffer returns. *)
Lemma parseDNSName_from_no_pointer k : ∀ ptr nm first,
  length buf ≤ ptr + k →
  Buffer.pointer_after k buf next ptr = None →
  ∃ r, ∀ fuel, k < fuel →
    Buffer.parseDNSName_from fuel buf next ptr nm first = Some r.
Proof.
  induction k as [|k IH]; intros ptr nm first Hk Hafter.
  - exists (Buffer.finish_name nm ptr). intros [|fuel] Hfuel; [lia|].
    cbn [Buffer.parseDNSName_from]. by rewrite lookup_ge_None_2 by lia.
  - cbn [Buffer.pointer_after] in Hafter.
    destruct (buf !! ptr) as [len|] eqn:Hlen; cycle 1.
    { exists (Buffer.finish_name nm ptr). intros [|fuel] Hfuel; [lia|].
      cbn [Buffer.parseDNSName_from]. by rewrite Hlen. }
    destruct (is_pointer len) eqn:Hptr.
    + case_decide as Hout; [|done].
      exists (Buffer.Err (S ptr)). intros [|fuel] Hfuel; [lia|].
      cbn [Buffer.parseDNSName_from]. rewrite Hlen, Hptr. by rewrite decide_True.
    + destruct (decide (val len = 0%N)) as [Hzero|Hlabel].
      { exists (Buffer.finish_name nm (S ptr)). intros [|fuel] Hfuel; [lia|].
        cbn [Buffer.parseDNSName_from]. rewrite Hlen, Hptr.
        by rewrite decide_True. }
      destruct (decide (length buf < S ptr + nval len)) as [Hlong|Hfits].
      { exists (Buffer.Err (S ptr)). intros [|fuel] Hfuel; [lia|].
        cbn [Buffer.parseDNSName_from]. rewrite Hlen, Hptr.
        rewrite decide_False by done. by rewrite decide_True. }
      destruct (IH (S ptr + nval len)
                  (append_label nm first (take (nval len) (drop (S ptr) buf)))
                  false) as [r Hr]; [lia|done|].
      exists r. intros [|fuel] Hfuel; [lia|].
      cbn [Buffer.parseDNSName_from]. rewrite Hlen, Hptr.
      rewrite !decide_False by done. apply Hr. lia.
Qed.

(** A call that recurses returns when the call it makes returns. *)
Lemma parseDNSName_from_pointer_returns k : ∀ ptr nm first o F r0,
  Buffer.pointer_after k buf next ptr = Some o →
  (∀ fuel, F ≤ fuel →
     Buffer.parseDNSName_from fuel buf next o [] true = Some r0) →
  ∃ r, ∀ fuel, F + k ≤ fuel →
    Buffer.parseDNSName_from fuel buf next ptr nm first = Some r.
Proof.
  induction k as [|k IH]; intros ptr nm first o F r0 Hafter Hrec; [done|].
  cbn [Buffer.pointer_after] in Hafter.
  destruct (buf !! ptr) as [len|] eqn:Hlen; [|done].
  destruct (is_pointer len) eqn:Hptr.
  - case_decide as Hin; [done|]. injection Hafter as <-.
    exists (match r0 with
            | Buffer.Ret remainingName _ =>
                Buffer.Ret (append_label nm first remainingName) (S (S ptr))
            | Buffer.Err _ => Buffer.Err (S ptr)
            end).
    intros [|fuel] Hfuel; [lia|].
    cbn [Buffer.parseDNSName_from]. rewrite Hlen, Hptr.
    rewrite decide_False by done. rewrite Hrec by lia. by destruct r0.
  - case_decide as Hzero; [done|]. case_decide as Hfits; [done|].
    destruct (IH _ (append_label nm first (take (nval len) (drop (S ptr) buf)))
                false _ _ _ Hafter Hrec) as [r Hr].
    exists r. intros [|fuel] Hfuel; [lia|].
    cbn [Buffer.parseDNSName_from]. rewrite Hlen, Hptr.
    rewrite !decide_False by done. apply Hr. lia.
Qed.

(** A call that recurses returns only when the call it makes returns. *)
Lemma parseDNSName_from_pointer_needs k : ∀ fuel ptr nm first o r,
  Buffer.pointer_after k buf next ptr = Some o →
  Buffer.parseDNSName_from fuel buf next ptr nm first = Some r →
  ∃ fuel', fuel' < fuel ∧
    is_Some (Buffer.parseDNSName_from fuel' buf next o [] true).
Proof.
  induction k as [|k IH]; intros fuel ptr nm first o r Hafter Hret; [done|].
  destruct fuel as [|fuel]; [done|].
  cbn [Buffer.pointer_after] in Hafter. cbn [Buffer.parseDNSName_from] in Hret.
  destruct (buf !! ptr) as [len|] eqn:Hlen; [|done].
  destruct (is_pointer len) eqn:Hptr.
  - case_decide as Hin; [done|]. injection Hafter as <-.
    destruct (Buffer.parseDNSName_from fuel buf next _ [] true) as [r0|] eqn:Hrec;
      [|done].
    exists fuel. split; [lia|]. rewrite Hrec. by eexists.
  - case_decide as Hzero; [done|]. case_decide as Hfits; [done|].
    destruct (IH _ _ _ _ _ _ Hafter Hret) as (fuel' & Hlt & Hsome).
    exists fuel'. split; [lia|done].
Qed.

Lemma follow_add a : ∀ b ptr,
  Buffer.follow (a + b) buf next ptr
  = Buffer.follow a buf next ptr ≫= Buffer.follow b buf next.
Proof.
  induction a as [|a IH]; intros b ptr; [done|].
  cbn [Nat.add Buffer.follow].
  destruct (Buffer.pointer_of buf next ptr) as [o|]; [|done]. apply IH.
Qed.

Lemma follow_bound n : ∀ ptr o,
  Buffer.follow (S n) buf next ptr = Some o → o < length buf.
Proof.
  induction n as [|n IH]; intros ptr o; cbn [Buffer.follow];
    destruct (Buffer.pointer_of buf next ptr) as [o'|] eqn:Hptr; try done.
  - intros [= <-]. by eapply pointer_after_bound.
  - apply IH.
Qed.

Lemma follow_prefix a b ptr :
  is_Some (Buffer.follow (a + b) buf next ptr) →
  is_Some (Buffer.follow a buf next ptr).
Proof.
  rewrite follow_add. destruct (Buffer.follow a buf next ptr); [by eexists|].
  by intros [? ?].
Qed.

Lemma follow_cycle d o m :
  Buffer.follow d buf next o = Some o →
  Buffer.follow (m * d) buf next o = Some o.
Proof.
  intros Hcycle. induction m as [|m IH]; [done|].
  cbn [Nat.mul]. by rewrite follow_add, Hcycle.
Qed.

(** A chain with more recursive calls than the buffer has offsets begins
    two calls at the same offset, and goes round for ever. *)
Lemma follow_forever ptr :
  is_Some (Buffer.follow (S (length buf)) buf next ptr) →
  ∀ n, is_Some (Buffer.follow n buf next ptr).
Proof.
  intros Hlong.
  assert (∀ i, i < S (length buf) →
            ∃ o, Buffer.follow (S i) buf next ptr = Some o ∧ o < length buf)
    as Hvisit.
  { intros i Hi.
    destruct (follow_prefix (S i) (length buf - i) ptr) as [o Ho].
    { by replace (S i + (length buf - i)) with (S (length buf)) by lia. }
    exists o. split; [done|]. by eapply follow_bound. }
  destruct (nat_pigeonhole
              (λ i, default 0 (Buffer.follow (S i) buf next ptr))
              (S (length buf)) (length buf)) as (i & j & Hij & Heq); [lia| |].
  { intros i Hi. by destruct (Hvisit i Hi) as (o & -> & Ho). }
  destruct (Hvisit i) as (o & Hi & _); [lia|].
  destruct (Hvisit j) as (o' & Hj & _); [lia|].
  rewrite Hi, Hj in Heq. cbn in Heq. subst o'.
  assert (Buffer.follow (j - i) buf next o = Some o) as Hcycle.
  { replace (S j) with (S i + (j - i)) in Hj by lia.
    by rewrite follow_add, Hi in Hj. }
  intros n. apply (follow_prefix n (S i + n * (j - i) - n)).
  replace (n + (S i + n * (j - i) - n)) with (S i + n * (j - i)) by nia.
  rewrite follow_add, Hi. cbn. rewrite follow_cycle by done. by eexists.
Qed.

Lemma follow_returns n : ∀ ptr nm first,
  Buffer.follow n buf next ptr = None →
  ∃ r, ∀ fuel, n * S (length buf) ≤ fuel →
    Buffer.parseDNSName_from fuel buf next ptr nm first = Some r.
Proof.
  induction n as [|n IH]; intros ptr nm first Hend; [done|].
  cbn [Buffer.follow] in Hend.
  destruct (Buffer.pointer_of buf next ptr) as [o|] eqn:Hptr.
  - destruct (IH o [] true Hend) as [r0 Hr0].
    destruct (parseDNSName_from_pointer_returns _ ptr nm first _ _ _ Hptr Hr0)
      as [r Hr].
    exists r. intros fuel Hfuel. apply Hr. lia.
  - destruct (parseDNSName_from_no_pointer (length buf) ptr nm first) as [r Hr];
      [lia|done|].
    exists r. intros fuel Hfuel. apply Hr. lia.
Qed.

Lemma follow_never_returns fuel : ∀ ptr nm first,
  (∀ n, is_Some (Buffer.follow n buf next ptr)) →
  Buffer.parseDNSName_from fuel buf next ptr nm first = None.
Proof.
  induction (lt_wf fuel) as [fuel _ IH]; intros ptr nm first Hall.
  destruct (Buffer.parseDNSName_from fuel buf next ptr nm first) as [r|] eqn:Hret;
    [|done].
  destruct (Hall 1) as [o Ho]. cbn [Buffer.follow] in Ho.
  destruct (Buffer.pointer_of buf next ptr) as [o'|] eqn:Hptr; [|done].
  destruct (parseDNSName_from_pointer_needs _ _ _ _ _ _ _ Hptr Hret)
    as (fuel' & Hlt & [r' Hr']).
  rewrite (IH fuel' Hlt o' [] true) in Hr'; [done|].
  intros n. specialize (Hall (S n)). cbn [Buffer.follow] in Hall.
  by rewrite Hptr in Hall.
Qed.

(** C3, as the code has it.  The call of parseDNSName at a cursor begins a
    chain of calls, one for every compression pointer that leads into the
    message; the second byte of a pointer whose first byte is the last
    byte of the message is the byte after the message.  When the chain
    comes to an end the call returns, however many pointers are chained,
    after at most (length + 1) * (length + 1) loop iterations and calls.
    When it does not, that is when two calls of the chain begin at the
    same offset, the call does not return: the loop of pointers is not
    rejected, and the recursion is not bounded. *)
Theorem parseDNSName_returns ptr :
  (Buffer.loop_free buf next ptr = true →
   ∃ r, ∀ fuel, S (length buf) * S (length buf) ≤ fuel →
     Buffer.parseDNSName fuel buf next ptr = Some r) ∧
  (Buffer.loop_free buf next ptr = false →
   ∀ fuel, Buffer.parseDNSName fuel buf next ptr = None).
Proof.
  unfold Buffer.loop_free. split.
  - intros Hend%bool_decide_eq_true_1. by apply follow_returns.
  - intros Hloop%bool_decide_eq_false_1 fuel.
    apply follow_never_returns, follow_forever.
    by destruct (Buffer.follow _ buf next ptr); [eexists|].
Qed.

End Chains.

(** C3 on a buffer with a pointer to a name that ends in a pointer and on
    a buffer with a pointer that leads forward, where the call returns the
    name, and on a datagram whose last byte is the first byte of a pointer
    that the byte after the datagram turns into a pointer to itself. *)
Lemma parseDNSName_returns_witness :
  (Buffer.loop_free chained_buffer x00 7 = true ∧
   (∃ r, ∀ fuel, 100 ≤ fuel →
      Buffer.parseDNSName fuel chained_buffer x00 7 = Some r) ∧
   Buffer.parseDNSName 100 chained_buffer x00 7
   = Some (Buffer.Ret (str "b.a") 9)) ∧
  (Buffer.loop_free forward_pointer_buffer x00 0 = true ∧
   (∃ r, ∀ fuel, 36 ≤ fuel →
      Buffer.parseDNSName fuel forward_pointer_buffer x00 0 = Some r) ∧
   Buffer.parseDNSName 36 forward_pointer_buffer x00 0
   = Some (Buffer.Ret (str "a") 2)) ∧
  (Buffer.loop_free short_pointer_datagram x0c 12 = false ∧
   ∀ fuel, Buffer.parseDNSName fuel short_pointer_datagram x0c 12 = None).
Proof.
  split; [split; [reflexivity|split; [|reflexivity]]|].
  { apply (proj1 (parseDNSName_returns chained_buffer x00 7)). reflexivity. }
  split; [split; [reflexivity|split; [|reflexivity]]|].
  { apply (proj1 (parseDNSName_returns forward_pointer_buffer x00 0)).
    reflexivity. }
  split; [reflexivity|].
  apply (proj2 (parseDNSName_returns short_pointer_datagram x0c 12)).
  reflexivity.
Defined.

(** C3 fails on a pointer loop: the two bytes C0 00 are a pointer to
    offset 0, inside the buffer, and the decoder started there never
    returns, so it does not reject the name either. *)
Lemma parseDNSName_loops_forever :
  pointer_offset xc0 x00 < length pointer_loop ∧
  (¬ ∃ fuel r, parseDNSName fuel pointer_loop 0 = Some r) ∧
  (¬ ∃ fuel o, parseMDNSResponse fuel pointer_loop_datagram
                 (str "192.168.1.20") [] = Some o).
Proof.
  split; [vm_compute; lia|]. split.
  - intros (fuel & r & Hr). unfold parseDNSName in Hr.
    by rewrite pointer_loop_no_result in Hr.
  - intros (fuel & o & Ho). by rewrite pointer_loop_datagram_no_result in Ho.
Qed.

(** ** Encoding a name and decoding it again *)

Section RoundTrip.

Implicit Types (l nm pre post : list byte) (ls : list (list byte)).

Lemma find_char_from_app c pre s :
  find_char_from c (pre ++ s) (length pre) = (λ k, length pre + k) <$> find_char c s.
Proof. unfold find_char_from. by rewrite drop_app_length. Qed.

Lemma join_dots_cons l l' ls :
  join_dots (l :: l' :: ls) = l ++ dot :: join_dots (l' :: ls).
Proof. done. Qed.

Lemma labels_bytes_cons l ls :
  labels_bytes (l :: ls) = (u8 (N.of_nat (length l)) :: l) ++ labels_bytes ls.
Proof. done. Qed.

(** The loop of addDNSName on what is left of a dotted name. *)
Lemma addDNSName_loop_labels ls : ∀ n packet pre,
  ls ≠ [] → Forall (λ l, l ≠ [] ∧ dot ∉ l) ls →
  length (join_dots ls) ≤ n →
  addDNSName_loop n packet (pre ++ join_dots ls) (length pre)
    (find_char_from dot (pre ++ join_dots ls) (length pre))
  = packet ++ labels_bytes ls ++ [x00].
Proof.
  induction ls as [|l ls IH]; intros n packet pre Hne Hok Hn; [done|].
  apply Forall_cons in Hok as [[Hl Hdot] Hok].
  destruct ls as [|l' ls].
  - cbn [join_dots]. rewrite find_char_from_app, find_char_None by done.
    cbn [fmap option_fmap option_map].
    replace (addDNSName_loop n packet (pre ++ l) (length pre) None)
      with ((if decide (drop (length pre) (pre ++ l) = [])
             then packet else push_label packet (drop (length pre) (pre ++ l)))
            ++ [x00]) by by destruct n.
    rewrite drop_app_length, decide_False by done.
    unfold push_label, labels_bytes. cbn. by rewrite app_nil_r, <- (assoc_L (++)).
  - rewrite join_dots_cons in *.
    rewrite find_char_from_app, find_char_first by done.
    cbn [fmap option_fmap option_map].
    destruct n as [|n].
    { rewrite length_app in Hn. cbn [length] in Hn. lia. }
    cbn [addDNSName_loop].
    replace (substr _ _ _) with l; cycle 1.
    { unfold substr. rewrite drop_app_length.
      replace (length pre + length l - length pre) with (length l) by lia.
      by rewrite take_app_length. }
    replace (length pre + length l + 1) with (length (pre ++ l ++ [dot]))
      by (rewrite !length_app; cbn; lia).
    replace (pre ++ l ++ dot :: join_dots (l' :: ls))
      with ((pre ++ l ++ [dot]) ++ join_dots (l' :: ls))
      by by rewrite <- !(assoc_L (++)).
    rewrite IH; [|done|done|rewrite length_app in Hn; cbn [length] in Hn; lia].
    unfold push_label. rewrite !labels_bytes_cons.
    by rewrite <- !(assoc_L (++)).
Qed.

Lemma addDNSName_labels packet ls :
  ls ≠ [] → Forall (λ l, l ≠ [] ∧ dot ∉ l) ls →
  addDNSName packet (join_dots ls) = packet ++ labels_bytes ls ++ [x00].
Proof.
  intros Hne Hok. unfold addDNSName.
  by apply (addDNSName_loop_labels ls _ packet []).
Qed.

Lemma label_length_byte l :
  1 ≤ length l → length l ≤ 63 →
  let len := u8 (N.of_nat (length l)) in
  nval len = length l ∧ val len ≠ 0%N ∧ is_pointer len = false.
Proof.
  intros Hmin Hmax len.
  assert (val len = N.of_nat (length l)) as Hval.
  { unfold len. rewrite val_u8. apply N.mod_small. lia. }
  split_and!.
  - unfold len. apply nval_u8. lia.
  - lia.
  - destruct (is_pointer len) eqn:Hptr; [|done].
    apply is_pointer_from_0x40 in Hptr. lia.
Qed.

(** One label at the cursor: lines 613-628. *)
Lemma parseDNSName_from_label fuel pre l rest nm first :
  1 ≤ length l → length l ≤ 63 →
  parseDNSName_from (S fuel)
    (pre ++ (u8 (N.of_nat (length l)) :: l) ++ rest) (length pre) nm first
  = parseDNSName_from fuel
      ((pre ++ u8 (N.of_nat (length l)) :: l) ++ rest)
      (length (pre ++ u8 (N.of_nat (length l)) :: l))
      (append_label nm first l) false.
Proof.
  intros Hmin Hmax.
  destruct (label_length_byte l Hmin Hmax) as (Hn & Hz & Hptr).
  cbn [parseDNSName_from app]. rewrite list_lookup_middle by done.
  rewrite Hptr, Hn. rewrite decide_False by done.
  rewrite decide_False by (rewrite !length_app; cbn; rewrite length_app; lia).
  replace (take _ (drop _ _)) with l; cycle 1.
  { rewrite (cons_middle _ pre), (assoc_L (++)).
    rewrite drop_app_length' by (rewrite length_app; cbn; lia).
    by rewrite take_app_length. }
  rewrite <- (assoc_L (++)). cbn [app].
  replace (S (length pre) + length l)
    with (length (pre ++ u8 (N.of_nat (length l)) :: l))
    by (rewrite length_app; cbn; lia).
  done.
Qed.

(** The zero length byte at the cursor: lines 608-611 and 631-638. *)
Lemma parseDNSName_from_zero fuel pre post nm first :
  parseDNSName_from (S fuel) (pre ++ x00 :: post) (length pre) nm first
  = Some (finish_name nm (S (length pre))).
Proof.
  cbn [parseDNSName_from]. rewrite list_lookup_middle by done.
  change (is_pointer x00) with false. cbn beta iota.
  by rewrite decide_True.
Qed.

Lemma append_label_nonempty nm first l :
  l ≠ [] → ∀ ptr, finish_name (append_label nm first l) ptr
                  = Ret (append_label nm first l) ptr.
Proof.
  intros Hl ptr. unfold finish_name.
  destruct (append_label nm first l) eqn:Happ; [|done].
  unfold append_label in Happ. apply app_eq_nil in Happ as [_ ?]. done.
Qed.

(** The decoder on length-prefixed labels followed by a zero byte, at any
    place of a buffer. *)
Lemma parseDNSName_from_labels ls : ∀ fuel pre post nm first,
  ls ≠ [] → Forall (λ l, 1 ≤ length l ∧ length l ≤ 63) ls →
  length ls < fuel →
  parseDNSName_from fuel (pre ++ labels_bytes ls ++ x00 :: post) (length pre)
    nm first
  = Some (Ret (append_label nm first (join_dots ls))
              (length pre + length (labels_bytes ls) + 1)).
Proof.
  induction ls as [|l ls IH]; intros fuel pre post nm first Hne Hok Hfuel; [done|].
  apply Forall_cons in Hok as [[Hmin Hmax] Hok].
  destruct fuel as [|fuel]; [lia|].
  rewrite labels_bytes_cons, <- (assoc_L (++)).
  rewrite parseDNSName_from_label by done.
  destruct ls as [|l' ls].
  - cbn [labels_bytes mbind list_bind app join_dots].
    destruct fuel as [|fuel]; [cbn in Hfuel; lia|].
    rewrite parseDNSName_from_zero.
    rewrite append_label_nonempty by (intros ->; cbn in Hmin; lia).
    do 2 f_equal. rewrite !length_app. cbn. rewrite ?length_app. cbn. lia.
  - rewrite IH; [|done|done|cbn in *; lia].
    rewrite join_dots_cons. do 2 f_equal.
    + unfold append_label. by rewrite <- !(assoc_L (++)).
    + rewrite !length_app. cbn. rewrite ?length_app. cbn. lia.
Qed.

(** C6, as the code has it: a name made of one or more labels of 1 to 63
    bytes each, without dot or NUL, joined by dots, is what parseDNSName
    decodes from the bytes that addDNSName encodes it to; the cursor ends
    after the encoding. *)
Theorem parseDNSName_addDNSName ls :
  ls ≠ [] → Forall label_ok ls →
  let encoded := addDNSName [] (join_dots ls) in
  ∀ fuel, length ls < fuel →
    parseDNSName fuel encoded 0 = Some (Ret (join_dots ls) (length encoded)).
Proof.
  intros Hne Hok encoded fuel Hfuel. unfold encoded.
  rewrite addDNSName_labels; [|done|]; cycle 1.
  { eapply Forall_impl; [done|]. intros l (Hmin & _ & Hdot & _).
    split; [|done]. intros ->. cbn in Hmin. lia. }
  unfold parseDNSName. cbn [app].
  pose proof (parseDNSName_from_labels ls fuel [] [] [] true Hne) as Hdec.
  cbn [app length] in Hdec. rewrite Hdec; [|by eapply Forall_impl; [done|];
    intros l (Hmin & Hmax & _)|done].
  do 2 f_equal. rewrite length_app. cbn. lia.
Qed.

End RoundTrip.

(** C6 on the name of a device of the target service. *)
Lemma parseDNSName_addDNSName_witness :
  let ls := [str "tv"; str "_leboremote"; str "_tcp"; str "local"] in
  ls ≠ [] ∧ Forall label_ok ls ∧
  join_dots ls = str "tv._leboremote._tcp.local" ∧
  parseDNSName 5 (addDNSName [] (str "tv._leboremote._tcp.local")) 0
  = Some (Ret (str "tv._leboremote._tcp.local") 27).
Proof.
  intros ls.
  assert (∀ (c : byte) (s : list byte), bool_decide (c ∈ s) = false → c ∉ s) as Hnot.
  { intros c s H. by apply bool_decide_eq_false in H. }
  assert (ls ≠ []) as Hne by discriminate.
  assert (Forall label_ok ls) as Hok.
  { repeat apply Forall_cons_2; try apply Forall_nil_2;
      (split; [cbn; lia|]; split; [cbn; lia|]; split; by apply Hnot). }
  split; [exact Hne|]. split; [exact Hok|]. split; [reflexivity|].
  apply (parseDNSName_addDNSName ls Hne Hok 5). cbn. lia.
Defined.

(** C6 fails on a name with an empty label: the name [a.] is made of the
    labels [a] and the empty label, neither longer than 63 bytes nor
    holding a NUL; addDNSName leaves the empty last label out, and the
    decoder gives back [a]. *)
Lemma trailing_dot_not_restored :
  join_dots [str "a"; []] = str "a." ∧
  addDNSName [] (str "a.") = u8 1 :: str "a" ++ [x00] ∧
  parseDNSName 2 (addDNSName [] (str "a.")) 0 = Some (Ret (str "a") 3) ∧
  ¬ ∃ fuel ptr,
      parseDNSName fuel (addDNSName [] (str "a.")) 0 = Some (Ret (str "a.") ptr).
Proof.
  split_and!; [done..|].
  intros (fuel & ptr & Hres).
  assert (parseDNSName 2 (addDNSName [] (str "a.")) 0 = Some (Ret (str "a") 3))
    as Htwo by done.
  unfold parseDNSName in *.
  apply (parseDNSName_from_mono _ (fuel + 2)) in Hres; [|lia].
  apply (parseDNSName_from_mono _ (fuel + 2)) in Htwo; [|lia].
  rewrite Hres in Htwo. discriminate Htwo.
Qed.

(** ** Reads outside the datagram *)

Section Bounds.

Implicit Types (buf : list byte) (fuel ptr : nat).

Lemma get16_in_bounds buf i : S i < length buf → is_Some (get16 buf i).
Proof.
  intros Hi. unfold get16.
  destruct (lookup_lt_is_Some_2 buf i) as [hi ->]; [lia|].
  destruct (lookup_lt_is_Some_2 buf (S i)) as [lo ->]; [lia|].
  by eexists.
Qed.

Lemma parseRecordHeader_read_past_end fuel buf ptr i :
  parseRecordHeader fuel buf ptr = Some (ReadPastEnd i) → overread buf i.
Proof.
  unfold parseRecordHeader, parseDNSName.
  destruct (parseDNSName_from fuel buf ptr [] true) as [[nm p|p|j]|] eqn:Hname;
    try done.
  - case_decide as Hlen; [done|].
    destruct (get16_in_bounds buf p) as [type ->]; [lia|].
    destruct (get16_in_bounds buf (p + 8)) as [rdlength ->]; [lia|].
    by case_decide.
  - intros [= ->]. by eapply parseDNSName_read_past_end.
Qed.

Lemma skip_questions_past_end fuel buf : ∀ n ptr i,
  skip_questions fuel buf n ptr = Some (PastEnd i) → overread buf i.
Proof.
  induction n as [|n IH]; intros ptr i; [done|]. cbn [skip_questions].
  destruct (parseDNSName fuel buf ptr) as [[nm p|p|j]|] eqn:Hname; try done.
  - apply IH.
  - apply IH.
  - intros [= ->]. by eapply parseDNSName_read_past_end.
Qed.

Lemma parse_answers_past_end fuel buf : ∀ n ptr info tgt i,
  parse_answers fuel buf n ptr info tgt = Some (PastEnd i) → overread buf i.
Proof.
  induction n as [|n IH]; intros ptr info tgt i; [done|]. cbn [parse_answers].
  destruct (parseRecordHeader fuel buf ptr) as [[rr p|p|j]|] eqn:Hrr; try done.
  - destruct (apply_record buf rr info tgt). apply IH.
  - apply IH.
  - intros [= ->]. by eapply parseRecordHeader_read_past_end.
Qed.

(** Every other dereference of parseMDNSResponse stays inside the
    datagram. *)
Lemma parseMDNSResponse_out_of_bounds fuel data sender devs i :
  parseMDNSResponse fuel data sender devs = Some (OutOfBounds i) →
  overread data i.
Proof.
  unfold parseMDNSResponse, header_size.
  case_decide as Hlen; [done|].
  destruct (get16_in_bounds data 2) as [flags ->]; [lia|].
  destruct (get16_in_bounds data 4) as [qdcount ->]; [lia|].
  destruct (get16_in_bounds data 6) as [ancount ->]; [lia|].
  case_decide; [done|].
  destruct (skip_questions fuel data _ 12) as [[[] p|j]|] eqn:Hskip; try done.
  - destruct (parse_answers fuel data _ p _ false) as [[[info tgt] q|j]|] eqn:Hans;
      try done.
    + by destruct (notify devs info tgt).
    + intros [= ->]. by eapply parse_answers_past_end.
  - intros [= ->]. by eapply skip_questions_past_end.
Qed.

End Bounds.

(** ** A datagram with an answer that does not decode *)

Section FailedRecord.

Variable fuel : nat.
Variable buf : list byte.
Variable next : byte.

(** The loop over the answers handles the answers that were decoded, in
    order, and nothing else. *)
Lemma parse_answers_decoded : ∀ n ptr outs info tgt,
  Buffer.answers fuel buf next n ptr = Some outs →
  Buffer.parse_answers fuel buf next n ptr info tgt
  = Some (foldl (λ c rr, apply_record buf rr c.1 c.2) (info, tgt)
            (Buffer.decoded outs)).
Proof.
  induction n as [|n IH]; intros ptr outs info tgt Houts.
  { cbn in Houts. by simplify_eq. }
  cbn [Buffer.answers Buffer.parse_answers] in *.
  destruct (Buffer.parseRecordHeader fuel buf next ptr) as [[rr p|p]|]; [| |done].
  - destruct (Buffer.answers fuel buf next n _) as [outs'|] eqn:Hrest; [|done].
    cbn in Houts. simplify_eq.
    destruct (apply_record buf rr info tgt) as [info' tgt'] eqn:Happly.
    rewrite (IH _ _ info' tgt' Hrest).
    unfold Buffer.decoded. cbn. by rewrite Happly.
  - destruct (Buffer.answers fuel buf next n _) as [outs'|] eqn:Hrest; [|done].
    cbn in Houts. simplify_eq. by rewrite (IH _ _ info tgt Hrest).
Qed.

(** C1, as the code has it.  An answer whose header does not decode is
    skipped on its own: the candidate and the target flag stay as they are
    and the loop goes on with the remaining answers, from the cursor that
    the failed decoding left.  The candidate is made of the answers that
    were decoded, whatever the others were, and it is reconciled after
    the loop.  When no answer of a response was decoded, the device list
    is unchanged and the observer is not called. *)
Theorem failed_record_skipped :
  (∀ n ptr p info tgt,
     Buffer.parseRecordHeader fuel buf next ptr = Some (Buffer.Err p) →
     Buffer.parse_answers fuel buf next (S n) ptr info tgt
     = Buffer.parse_answers fuel buf next n p info tgt) ∧
  (∀ sender devs flags qd an ptr outs,
     header_size ≤ length buf →
     get16 buf 2 = Some flags → N.land flags 0x8000 ≠ 0%N →
     get16 buf 4 = Some qd → get16 buf 6 = Some an →
     Buffer.skip_questions fuel buf next (N.to_nat qd) header_size = Some ptr →
     Buffer.answers fuel buf next (N.to_nat an) ptr = Some outs →
     Buffer.parseMDNSResponse fuel buf next sender devs
     = Some (let '(tempInfo, isTargetService) :=
               Buffer.candidate buf sender (Buffer.decoded outs) in
             notify devs tempInfo isTargetService) ∧
     (Buffer.decoded outs = [] →
      Buffer.parseMDNSResponse fuel buf next sender devs = Some (devs, []))).
Proof.
  split.
  - intros n ptr p info tgt Hfail. cbn [Buffer.parse_answers]. by rewrite Hfail.
  - intros sender devs flags qd an ptr outs Hlen Hflags Hresp Hqd Han Hskip Houts.
    assert (Buffer.parseMDNSResponse fuel buf next sender devs
            = Some (let '(tempInfo, isTargetService) :=
                      Buffer.candidate buf sender (Buffer.decoded outs) in
                    notify devs tempInfo isTargetService)) as Hres.
    { unfold Buffer.parseMDNSResponse.
      rewrite decide_False by lia. rewrite Hflags, Hqd, Han.
      rewrite decide_False by done. rewrite Hskip.
      rewrite (parse_answers_decoded _ _ _ _ _ Houts).
      unfold Buffer.candidate.
      by destruct (foldl _ _ (Buffer.decoded outs)). }
    split; [done|]. intros Hnone. by rewrite Hres, Hnone.
Qed.

End FailedRecord.

(** C1 on a response with three answers.  The first is a pointer past the
    end of the message: its decoding stops after the first byte of the
    pointer, so that the second answer is decoded from the second byte of
    the pointer and fails too.  The third, decoded from where the second
    stopped, is the TXT record of [tv], and [tv] is appended and handed to
    the observer. *)
Lemma failed_record_skipped_witness :
  let tv_record := {| rr_name := str "tv._leboremote._tcp.local"; rr_type := 16;
                      rr_rdlength := 6; rr_rdata := 51 |} in
  Buffer.parseRecordHeader 5 bad_then_good_datagram x00 12
  = Some (Buffer.Err 13) ∧
  Buffer.parse_answers 5 bad_then_good_datagram x00 3 12 box false
  = Buffer.parse_answers 5 bad_then_good_datagram x00 2 13 box false ∧
  Buffer.answers 5 bad_then_good_datagram x00 3 12
  = Some [Buffer.Err 13; Buffer.Err 14; Buffer.Ret tv_record 51] ∧
  Buffer.parseMDNSResponse 5 bad_then_good_datagram x00 (str "192.168.1.20") [box]
  = Some ([box; tv], [tv]).
Proof.
  intros tv_record.
  split; [reflexivity|]. split; [|split; [reflexivity|]].
  - apply (proj1 (failed_record_skipped 5 bad_then_good_datagram x00)
             2 12 13 box false).
    reflexivity.
  - apply (proj2 (failed_record_skipped 5 bad_then_good_datagram x00)
             (str "192.168.1.20") [box] 0x8400%N 0%N 3%N 12
             [Buffer.Err 13; Buffer.Err 14; Buffer.Ret tv_record 51]).
    + vm_compute. lia.
    + reflexivity.
    + discriminate.
    + reflexivity.
    + reflexivity.
    + reflexivity.
    + reflexivity.
Defined.

(** C1 fails on a response whose first answer decodes and whose second
    does not: the second answer, a name that is a pointer past the end of
    the message, is rejected, and the candidate built from the first answer
    is still appended to the device list and handed to the observer. *)
Lemma good_then_bad_is_reconciled :
  length good_then_bad_datagram = 57 ∧
  pointer_offset xc0 xff = 255 ∧
  parseRecordHeader 6 good_then_bad_datagram 55 = Some (Err 56) ∧
  parseMDNSResponse 6 good_then_bad_datagram (str "192.168.1.20") []
  = Some (Processed [tv] [tv]).
Proof.
  repeat split.
Qed.

(** * Further properties of the code *)

(** ** What a datagram can do to the device list *)

Section Datagram.

Implicit Types (buf data sender : list byte) (devs : list DeviceInfo).

Lemma contains_nil_r (pat : list byte) : pat ≠ [] → contains pat [] = false.
Proof. by destruct pat. Qed.

(** A name that parseDNSName returns is not empty, and the cursor it
    leaves is past the one it was given and not past the end. *)
Lemma parseDNSName_from_ret fuel : ∀ buf ptr nm first nm' p,
  parseDNSName_from fuel buf ptr nm first = Some (Ret nm' p) →
  nm' ≠ [] ∧ ptr ≤ p ∧ p ≤ ptr `max` length buf ∧ (nm = [] → ptr < p).
Proof.
  induction fuel as [|fuel IH]; intros buf ptr nm first nm' p; [done|].
  cbn [parseDNSName_from].
  destruct (buf !! ptr) as [len|] eqn:Hlen.
  2:{ unfold finish_name. destruct nm; [done|]. intros [= <- <-].
      split_and!; [done|lia..|done]. }
  apply lookup_lt_Some in Hlen as Hlt.
  destruct (is_pointer len) eqn:Hptr.
  - destruct (buf !! S ptr) as [lo|] eqn:Hlo; [|done].
    apply lookup_lt_Some in Hlo as Hlt'.
    case_decide; [done|].
    destruct (parseDNSName_from fuel buf _ [] true) as [[rem q| |]|] eqn:Hrec;
      try done.
    intros [= <- <-]. apply IH in Hrec as (Hrem & _).
    split_and!; [|lia..].
    unfold append_label. intros [_ ?]%app_eq_nil. done.
  - case_decide.
    { unfold finish_name. destruct nm; [done|]. intros [= <- <-].
      split_and!; [done|lia..|done]. }
    case_decide; [done|].
    intros Hrec. apply IH in Hrec as (Hne & Hle & Hmax & _).
    split_and!; [done|lia..].
Qed.

End Datagram.

Section Cursor.

Implicit Types (buf nm : list byte) (next : byte).

(** The two embeddings of the decoder agree wherever the first one
    returns. *)
Lemma parseDNSName_from_agree fuel : ∀ buf next ptr nm first,
  match parseDNSName_from fuel buf ptr nm first with
  | Some (Ret nm' p) =>
      Buffer.parseDNSName_from fuel buf next ptr nm first
      = Some (Buffer.Ret nm' p)
  | Some (Err p) =>
      Buffer.parseDNSName_from fuel buf next ptr nm first = Some (Buffer.Err p)
  | _ => True
  end.
Proof.
  induction fuel as [|fuel IH]; intros buf next ptr nm first; [done|].
  cbn [parseDNSName_from Buffer.parseDNSName_from].
  destruct (buf !! ptr) as [len|] eqn:Hlen.
  2:{ unfold finish_name, Buffer.finish_name. by destruct nm. }
  destruct (is_pointer len).
  - destruct (buf !! S ptr) as [lo|]; [|exact I].
    change (default next (Some lo)) with lo.
    destruct (decide (length buf ≤ pointer_offset len lo)); [done|].
    specialize (IH buf next (pointer_offset len lo) [] true).
    destruct (parseDNSName_from fuel buf _ [] true) as [[| |]|];
      try done; by rewrite IH.
  - destruct (decide (val len = 0%N)).
    { unfold finish_name, Buffer.finish_name. by destruct nm. }
    destruct (decide (length buf < S ptr + nval len)); [done|]. apply IH.
Qed.

Lemma Buffer_parseDNSName_from_ret fuel : ∀ buf next ptr nm first nm' p,
  Buffer.parseDNSName_from fuel buf next ptr nm first
  = Some (Buffer.Ret nm' p) →
  nm' ≠ [] ∧ ptr ≤ p ∧ (nm = [] → ptr < p) ∧
  (ptr ≤ length buf →
   p ≤ S (length buf) ∧
   (length buf < p → ∃ len, last buf = Some len ∧ is_pointer len = true)).
Proof.
  induction fuel as [|fuel IH]; intros buf next ptr nm first nm' p; [done|].
  cbn [Buffer.parseDNSName_from].
  destruct (buf !! ptr) as [len|] eqn:Hlen.
  2:{ unfold Buffer.finish_name. destruct nm; [done|]. intros [= <- <-].
      split_and!; [done|lia|done|]. intros Hptr. split; [lia|]. lia. }
  apply lookup_lt_Some in Hlen as Hlt.
  destruct (is_pointer len) eqn:Hptr.
  - case_decide; [done|].
    destruct (Buffer.parseDNSName_from fuel buf next _ [] true)
      as [[rem q|]|] eqn:Hrec; try done.
    intros [= <- <-]. apply IH in Hrec as (Hrem & _).
    split_and!; [|lia|lia|].
    { unfold append_label. by intros [_ ?]%app_eq_nil. }
    intros _. split; [lia|]. intros Hpast. exists len. split; [|done].
    rewrite last_lookup. by replace (pred (length buf)) with ptr by lia.
  - case_decide.
    { unfold Buffer.finish_name. destruct nm; [done|]. intros [= <- <-].
      split_and!; [done|lia|done|]. intros _. split; lia. }
    case_decide; [done|].
    intros Hrec. apply IH in Hrec as (Hne & Hle & _ & Hend).
    split_and!; [done|lia|lia|]. intros _. apply Hend. lia.
Qed.

(** X1: a name that parseDNSName accepts is not empty, and the cursor the
    call leaves is after the place where the name starts and at most one
    byte after the end of the message; it is after the end only when the
    last byte of the message is the first byte of a pointer, whose second
    byte the call took from after the message. *)
Theorem parseDNSName_ret_bounds fuel buf next ptr nm p :
  Buffer.parseDNSName fuel buf next ptr = Some (Buffer.Ret nm p) →
  nm ≠ [] ∧ ptr < p ∧ p ≤ S (length buf) ∧
  (length buf < p → ∃ len, last buf = Some len ∧ is_pointer len = true).
Proof.
  intros Hret. unfold Buffer.parseDNSName in Hret.
  assert (ptr < length buf) as Hin.
  { destruct fuel as [|fuel]; [done|]. cbn [Buffer.parseDNSName_from] in Hret.
    destruct (buf !! ptr) eqn:Hlen; [by eapply lookup_lt_Some|done]. }
  apply Buffer_parseDNSName_from_ret in Hret as (Hne & Hle & Hlt & Hend).
  destruct Hend as [Hmax Hlast]; [lia|].
  split_and!; [done|by apply Hlt|done|done].
Qed.

End Cursor.

(** X1 on a datagram of 13 bytes that ends with the first byte of a
    pointer, when the byte after the datagram is 8: the pointer leads to
    the name [a] at offset 8 and the cursor is left at 14. *)
Lemma parseDNSName_ret_bounds_witness :
  Buffer.parseDNSName 3 stale_pointer_datagram x08 12
  = Some (Buffer.Ret (str "a") 14) ∧
  str "a" ≠ [] ∧ 12 < 14 ∧ 14 ≤ S (length stale_pointer_datagram) ∧
  (length stale_pointer_datagram < 14 →
   ∃ len, last stale_pointer_datagram = Some len ∧ is_pointer len = true).
Proof.
  split; [reflexivity|].
  apply (parseDNSName_ret_bounds 3 stale_pointer_datagram x08 12). reflexivity.
Defined.

(** ** Sixteen-bit fields *)

Section Fields.

Implicit Types (buf : list byte) (hi lo : byte) (v : N).

Lemma lor_shiftl_8 (a b : N) :
  (b < 256)%N → N.lor (N.shiftl a 8) b = (a * 256 + b)%N.
Proof.
  intros Hb. rewrite N.shiftl_mul_pow2. change (2 ^ 8)%N with 256%N.
  apply N.bits_inj. intros i. rewrite N.lor_spec.
  destruct (decide (i < 8)%N) as [Hi|Hi].
  - replace (a * 256)%N with (a * 2 ^ 8)%N by done.
    rewrite N.mul_pow2_bits_low by done. cbn.
    rewrite N.add_comm. rewrite <- (N.mod_pow2_bits_low _ 8 i) by done.
    rewrite <- (N.mod_pow2_bits_low (b + _) 8 i) by done.
    f_equal. change (2 ^ 8)%N with 256%N. by rewrite N.Div0.mod_add.
  - replace (N.testbit b i) with false; cycle 1.
    { symmetry. apply N.bits_above_log2.
      destruct (decide (b = 0%N)) as [->|Hz]; [cbn; lia|].
      assert (N.log2 b < 8)%N; [|lia]. apply N.log2_lt_pow2; [lia|]. done. }
    rewrite orb_false_r. replace i with (i - 8 + 8)%N by lia.
    replace (a * 256)%N with (a * 2 ^ 8)%N by done.
    rewrite N.mul_pow2_bits_add.
    rewrite <- (N.div_pow2_bits (a * 2 ^ 8 + b)).
    f_equal. change (2 ^ 8)%N with 256%N.
    rewrite N.add_comm, N.div_add by done. by rewrite N.div_small.
Qed.

Lemma be16_value hi lo : be16 hi lo = (val hi * 256 + val lo)%N.
Proof. unfold be16. apply lor_shiftl_8, val_bound. Qed.

Lemma be16_bound hi lo : (be16 hi lo < 65536)%N.
Proof.
  rewrite be16_value. pose proof (val_bound hi). pose proof (val_bound lo). lia.
Qed.

Lemma get16_bound buf i v : get16 buf i = Some v → (v < 65536)%N.
Proof.
  unfold get16. destruct (buf !! i), (buf !! S i); try done.
  intros [= <-]. apply be16_bound.
Qed.

(** A 16-bit field written as [htons] writes it and read back as the
    decoders read it gives the value modulo 65536, wherever the two bytes
    are in the buffer. *)
Lemma get16_htons (pre post : list byte) v :
  get16 (pre ++ htons v ++ post) (length pre) = Some (v mod 65536)%N.
Proof.
  unfold get16, htons. cbn [app].
  rewrite list_lookup_middle by done.
  rewrite (cons_middle _ pre), (assoc_L (++)).
  rewrite list_lookup_middle by (rewrite length_app; cbn; lia).
  f_equal. rewrite be16_value, !val_u8.
  rewrite N.shiftr_div_pow2. change (2 ^ 8)%N with 256%N.
  change 65536%N with (256 * 256)%N.
  rewrite (N.Div0.mod_mul_r v 256 256). lia.
Qed.

End Fields.

(** ** Records and datagrams *)

Section Responses.

Implicit Types (buf data sender : list byte) (devs : list DeviceInfo).


Lemma land_bit15 (f : N) : N.land f 0x8000 = 0%N ↔ N.testbit f 15 = false.
Proof.
  change 0x8000%N with (2 ^ 15)%N. split.
  - intros Hland.
    assert (N.testbit (N.land f (2 ^ 15)) 15 = false) as Hbit
      by (rewrite Hland; apply N.bits_0).
    rewrite N.land_spec, N.pow2_bits_true in Hbit. by rewrite andb_true_r in Hbit.
  - intros Hbit. apply N.bits_inj. intros i.
    rewrite N.land_spec, N.bits_0, N.pow2_bits_eqb.
    destruct (N.eqb_spec 15 i) as [<-|_]; [by rewrite Hbit|apply andb_false_r].
Qed.

(** X3: a datagram shorter than a DNS header, or one whose flags have the
    response bit clear, is left alone whatever else it holds: the device
    list is unchanged and the observer is not called. *)
Theorem parseMDNSResponse_ignored fuel data sender devs :
  length data < header_size ∨
  (∃ f, get16 data 2 = Some f ∧ N.testbit f 15 = false) →
  parseMDNSResponse fuel data sender devs = Some (Processed devs []).
Proof.
  intros Hcase. unfold parseMDNSResponse, header_size in *.
  case_decide as Hlen; [done|].
  destruct Hcase as [?|(f & Hf & Hbit)]; [lia|]. rewrite Hf.
  destruct (get16_in_bounds data 4) as [qd ->]; [lia|].
  destruct (get16_in_bounds data 6) as [an ->]; [lia|].
  by rewrite decide_True by by apply land_bit15.
Qed.

Lemma apply_record_inv buf rr info tgt :
  let '(info', tgt') := apply_record buf rr info tgt in
  ip info' = ip info ∧
  ((tgt = true → contains target_service (name info) = true) →
   tgt' = true → contains target_service (name info') = true).
Proof.
  unfold apply_record.
  destruct (contains target_service (rr_name rr)) eqn:Hc;
    destruct (decide (rr_type rr = 16%N)); cbn; try done;
    destruct tgt; cbn; auto.
Qed.

Lemma parse_answers_inv fuel buf : ∀ n ptr info tgt info' tgt' q,
  parse_answers fuel buf n ptr info tgt = Some (Through (info', tgt') q) →
  (tgt = true → contains target_service (name info) = true) →
  ip info' = ip info ∧
  (tgt' = true → contains target_service (name info') = true).
Proof.
  induction n as [|n IH]; intros ptr info tgt info' tgt' q.
  { intros [= <- <- <-]. done. }
  cbn [parse_answers].
  destruct (parseRecordHeader fuel buf ptr) as [[rr p|p|j]|]; try done.
  - pose proof (apply_record_inv buf rr info tgt) as Hrec.
    destruct (apply_record buf rr info tgt) as [info1 tgt1].
    destruct Hrec as [Hip Hname]. intros Hans Hinv.
    apply IH in Hans as [Hip' Hname']; [|by apply Hname].
    split; [congruence|done].
  - apply IH.
Qed.

(** What reconcile tells the observer: nothing, and then the list is
    unchanged, or one device, which is in the new list under the name of
    the candidate with the candidate's address and attributes. *)
Lemma reconcile_calls devs cand :
  let '(devs', calls) := reconcile devs cand in
  (calls = [] ∧ devs' = devs) ∨
  (∃ d, calls = [d] ∧ d ∈ devs' ∧ name d = name cand ∧ ip d = ip cand ∧
        txtRecords d = txtRecords cand).
Proof.
  unfold reconcile.
  destruct (list_find _ devs) as [[i it]|] eqn:Hfind.
  - apply list_find_Some in Hfind as (Hi & Hname & _).
    case_decide; [by left|]. right. eexists. split_and!; try done.
    apply list_elem_of_lookup. exists i.
    apply list_lookup_insert_eq. by eapply lookup_lt_Some.
  - right. exists cand. split_and!; try done.
    apply elem_of_app. right. by apply list_elem_of_singleton.
Qed.


(** The device list keeps its shape under any datagram: no two entries
    share a name, and every name holds the target service name. *)
Lemma parseMDNSResponse_registry fuel data sender devs devs' calls :
  NoDup (name <$> devs) →
  Forall (λ d, contains target_service (name d) = true) devs →
  parseMDNSResponse fuel data sender devs = Some (Processed devs' calls) →
  NoDup (name <$> devs') ∧
  Forall (λ d, contains target_service (name d) = true) devs'.
Proof.
  intros Hnd Hall. unfold parseMDNSResponse.
  case_decide; [by intros [= <- <-]|].
  destruct (get16 data 2) as [f|]; [|done].
  destruct (get16 data 4) as [qd|]; [|done].
  destruct (get16 data 6) as [an|]; [|done].
  case_decide; [by intros [= <- <-]|].
  destruct (skip_questions fuel data _ _) as [[[] p|]|]; try done.
  destruct (parse_answers fuel data _ p _ false) as [[[info tgt] q|]|] eqn:Hans;
    try done.
  apply parse_answers_inv in Hans as [_ Hname]; [|done].
  unfold notify. case_decide; [by intros [= <- <-]|].
  destruct tgt; [|by intros [= <- <-]].
  pose proof (reconcile_NoDup devs info Hnd) as Hnd'.
  destruct (reconcile devs info) as [devs1 calls1] eqn:Hrec.
  intros [= <- <-]. split; [done|].
  unfold reconcile in Hrec.
  destruct (list_find _ devs) as [[i it]|] eqn:Hfind.
  - apply list_find_Some in Hfind as (Hi & Hn & _).
    case_decide; simplify_eq; [done|].
    apply Forall_insert; [done|]. cbn. rewrite Hn. by apply Hname.
  - simplify_eq. apply Forall_app. split; [done|].
    apply Forall_singleton. by apply Hname.
Qed.

End Responses.


(** X3 on a datagram of three bytes and on the query of the service
    itself. *)
Lemma parseMDNSResponse_ignored_witness :
  (length [x00; x00; x84] < header_size ∧
   parseMDNSResponse 1 [x00; x00; x84] (str "192.168.1.20") [tv]
   = Some (Processed [tv] [])) ∧
  (get16 query_datagram 2 = Some 0x100%N ∧ N.testbit 0x100 15 = false ∧
   parseMDNSResponse 1 query_datagram (str "192.168.1.20") [tv]
   = Some (Processed [tv] [])).
Proof.
  split.
  - split; [vm_compute; lia|].
    apply (parseMDNSResponse_ignored 1 [x00; x00; x84]). left. vm_compute. lia.
  - split; [reflexivity|]. split; [reflexivity|].
    apply (parseMDNSResponse_ignored 1 query_datagram). right.
    exists 0x100%N. split; reflexivity.
Defined.


(** ** Names: labels, ends and pointers *)

Section Labels.

Implicit Types (l nm pre post rest : list byte) (ls : list (list byte)).

(** The loop of parseDNSName over labels of 1 to 63 bytes: one iteration
    for each, whatever follows them. *)
Lemma parseDNSName_from_walk ls : ∀ fuel pre rest nm first,
  ls ≠ [] → Forall (λ l, 1 ≤ length l ∧ length l ≤ 63) ls →
  parseDNSName_from (length ls + fuel) (pre ++ labels_bytes ls ++ rest)
    (length pre) nm first
  = parseDNSName_from fuel (pre ++ labels_bytes ls ++ rest)
      (length pre + length (labels_bytes ls))
      (append_label nm first (join_dots ls)) false.
Proof.
  induction ls as [|l ls IH]; intros fuel pre rest nm first Hne Hok; [done|].
  apply Forall_cons in Hok as [[Hmin Hmax] Hok].
  rewrite labels_bytes_cons, <- (assoc_L (++)). cbn [length plus].
  rewrite parseDNSName_from_label by done.
  destruct ls as [|l' ls].
  - cbn [labels_bytes mbind list_bind app join_dots length plus].
    rewrite app_nil_r. f_equal.
    + by rewrite <- (assoc_L (++)).
    + rewrite length_app. cbn. lia.
  - rewrite IH by done. rewrite join_dots_cons. f_equal.
    + by rewrite <- !(assoc_L (++)).
    + rewrite !length_app. cbn. rewrite !length_app. cbn. lia.
    + unfold append_label. by rewrite <- !(assoc_L (++)).
Qed.

Lemma length_labels_bytes ls :
  ls ≠ [] → length (labels_bytes ls) = S (length (join_dots ls)).
Proof.
  induction ls as [|l ls IH]; intros Hne; [done|].
  rewrite labels_bytes_cons, length_app. cbn [length].
  destruct ls as [|l' ls].
  - cbn. lia.
  - rewrite IH by done. rewrite join_dots_cons, length_app. cbn [length]. lia.
Qed.

Lemma join_dots_snoc ls l :
  ls ≠ [] → join_dots (ls ++ [l]) = join_dots ls ++ dot :: l.
Proof.
  induction ls as [|l1 ls IH]; intros Hne; [done|].
  destruct ls as [|l2 ls]; [done|].
  change ((l1 :: l2 :: ls) ++ [l]) with (l1 :: l2 :: (ls ++ [l])).
  rewrite !join_dots_cons, <- (assoc_L (++)). cbn [app]. do 2 f_equal.
  by apply (IH ltac:(done)).
Qed.

(** X5: a name needs no zero byte when its labels end where the message ends:
    the loop stops at the end of the buffer and the name is accepted. *)
Theorem parseDNSName_unterminated ls pre fuel :
  ls ≠ [] → Forall (λ l, 1 ≤ length l ∧ length l ≤ 63) ls →
  length ls < fuel →
  parseDNSName fuel (pre ++ labels_bytes ls) (length pre)
  = Some (Ret (join_dots ls) (length (pre ++ labels_bytes ls))).
Proof.
  intros Hne Hok Hfuel. unfold parseDNSName.
  replace fuel with (length ls + S (fuel - S (length ls))) by lia.
  pose proof (parseDNSName_from_walk ls (S (fuel - S (length ls))) pre [] [] true
                Hne Hok) as Hwalk.
  rewrite app_nil_r in Hwalk. rewrite Hwalk. cbn [parseDNSName_from].
  rewrite lookup_ge_None_2 by (rewrite length_app; lia).
  unfold append_label. cbn [app]. unfold finish_name.
  destruct (join_dots ls) eqn:Hj.
  - pose proof (length_labels_bytes ls Hne) as Hlen. rewrite Hj in Hlen.
    destruct ls as [|l [|l' ls']]; [done| |].
    + apply Forall_cons in Hok as [[? ?] _]. cbn in Hj. subst l. cbn in *. lia.
    + rewrite join_dots_cons in Hj. by destruct l.
  - by rewrite length_app.
Qed.

(** X6: a name without labels is rejected: at a zero length byte the call
    returns false with the cursor after the byte, and at or after the end
    of the message it returns false without moving the cursor. *)
Theorem parseDNSName_empty_name fuel :
  (∀ pre post,
     parseDNSName (S fuel) (pre ++ x00 :: post) (length pre)
     = Some (Err (S (length pre)))) ∧
  (∀ buf ptr, length buf ≤ ptr →
     parseDNSName (S fuel) buf ptr = Some (Err ptr)).
Proof.
  split.
  - intros pre post. unfold parseDNSName. by rewrite parseDNSName_from_zero.
  - intros buf ptr Hptr. unfold parseDNSName. cbn [parseDNSName_from].
    by rewrite lookup_ge_None_2.
Qed.

Lemma pointer_bytes_spec (o : nat) :
  (N.of_nat o < 0x4000)%N →
  match pointer_bytes o with
  | [hi; lo] => is_pointer hi = true ∧ pointer_offset hi lo = o
  | _ => False
  end.
Proof.
  intros Ho. unfold pointer_bytes.
  assert (N.of_nat o / 256 < 64)%N as Hhi
    by (apply N.Div0.div_lt_upper_bound; lia).
  pose proof (N.Div0.div_mod (N.of_nat o) 256) as Hdm.
  set (h := (N.of_nat o / 256)%N) in *.
  set (r := (N.of_nat o mod 256)%N) in *.
  assert (val (u8 (0xC0 + h)) = (0xC0 + h)%N) as Hval.
  { rewrite val_u8. apply N.mod_small. clearbody h. lia. }
  split.
  - apply is_pointer_from_0x40. rewrite Hval. clearbody h. lia.
  - rewrite pointer_offset_value, Hval, val_u8. fold r.
    replace ((0xC0 + h) mod 64)%N with h; cycle 1.
    { change 0xC0%N with (3 * 64)%N.
      rewrite N.add_comm, N.Div0.mod_add. symmetry. by apply N.mod_small. }
    clearbody h r. lia.
Qed.

(** X7: name compression: labels followed by a pointer to an offset inside
    the message at which a name decodes give the labels and that name,
    joined by dots, and the cursor ends after the two bytes of the
    pointer. *)
Theorem parseDNSName_compressed ls pre post o fuel remainingName q :
  let buf := pre ++ labels_bytes ls ++ pointer_bytes o ++ post in
  Forall (λ l, 1 ≤ length l ∧ length l ≤ 63) ls →
  (N.of_nat o < 0x4000)%N → o < length buf →
  parseDNSName fuel buf o = Some (Ret remainingName q) →
  parseDNSName (length ls + S fuel) buf (length pre)
  = Some (Ret (join_dots (ls ++ [remainingName]))
              (length pre + length (labels_bytes ls) + 2)).
Proof.
  intros buf Hok Ho Hin Hrec. unfold parseDNSName.
  pose proof (pointer_bytes_spec o Ho) as Hptr.
  assert (∀ nm first,
    parseDNSName_from (S fuel) buf (length pre + length (labels_bytes ls)) nm first
    = Some (Ret (append_label nm first remainingName)
                (length pre + length (labels_bytes ls) + 2))) as Hstep.
  { intros nm first. unfold buf in *. unfold pointer_bytes in *.
    set (hi := u8 (0xC0 + N.of_nat o / 256)) in *.
    set (lo := u8 (N.of_nat o)) in *. destruct Hptr as [Hhi Hoff].
    apply (parseDNSName_pointer _ _ _ _ _ hi lo _ q).
    - rewrite (assoc_L (++)), <- length_app. by apply list_lookup_middle.
    - done.
    - rewrite (assoc_L (++)). cbn [app].
      rewrite (cons_middle hi), (assoc_L (++) _ [hi]).
      apply list_lookup_middle. rewrite !length_app. cbn. lia.
    - by rewrite Hoff.
    - by rewrite Hoff. }
  destruct ls as [|l ls'].
  - cbn [length plus]. cbn [labels_bytes mbind list_bind length] in Hstep.
    rewrite Nat.add_0_r in Hstep. rewrite Hstep.
    cbn [labels_bytes mbind list_bind length app]. do 2 f_equal. lia.
  - fold buf. unfold buf at 1.
    rewrite parseDNSName_from_walk; [|done..]. fold buf. rewrite Hstep.
    do 2 f_equal. unfold append_label.
    rewrite join_dots_snoc by done. by rewrite <- (assoc_L (++)).
Qed.

End Labels.

(** X5 on the labels of the name of [tv] at the end of a datagram. *)
Lemma parseDNSName_unterminated_witness :
  tv_labels ≠ [] ∧ Forall (λ l, 1 ≤ length l ∧ length l ≤ 63) tv_labels ∧
  length tv_labels < 5 ∧
  parseDNSName 5 (response_header 1 ++ labels_bytes tv_labels)
    (length (response_header 1))
  = Some (Ret (join_dots tv_labels)
              (length (response_header 1 ++ labels_bytes tv_labels))).
Proof.
  assert (Forall (λ l, 1 ≤ length l ∧ length l ≤ 63) tv_labels) as Hok.
  { repeat first [apply Forall_nil_2 | apply Forall_cons_2]; cbn; lia. }
  split; [discriminate|]. split; [exact Hok|]. split; [cbn; lia|].
  apply (parseDNSName_unterminated tv_labels (response_header 1) 5);
    [discriminate | exact Hok | cbn; lia].
Defined.

(** X6 on a zero byte after the header and on a datagram that ends with
    the header. *)
Lemma parseDNSName_empty_name_witness :
  parseDNSName 1 (response_header 1 ++ x00 :: htons 16)
    (length (response_header 1))
  = Some (Err (S (length (response_header 1)))) ∧
  length (response_header 1) ≤ 12 ∧
  parseDNSName 1 (response_header 1) 12 = Some (Err 12).
Proof.
  split; [|split; [cbn; lia|]].
  - apply (proj1 (parseDNSName_empty_name 0) (response_header 1) (htons 16)).
  - apply (proj2 (parseDNSName_empty_name 0) (response_header 1) 12). cbn. lia.
Defined.

(** X7 on the name [tv] that ends in a pointer to the name [local]. *)
Lemma parseDNSName_compressed_witness :
  let buf := local_name ++ labels_bytes [str "tv"] ++ pointer_bytes 0 ++ [] in
  Forall (λ l, 1 ≤ length l ∧ length l ≤ 63) [str "tv"] ∧
  (N.of_nat 0 < 0x4000)%N ∧ 0 < length buf ∧
  parseDNSName 2 buf 0 = Some (Ret (str "local") 7) ∧
  parseDNSName (length [str "tv"] + 3) buf (length local_name)
  = Some (Ret (join_dots ([str "tv"] ++ [str "local"]))
              (length local_name + length (labels_bytes [str "tv"]) + 2)).
Proof.
  intros buf.
  assert (Forall (λ l, 1 ≤ length l ∧ length l ≤ 63) [str "tv"]) as Hok.
  { repeat first [apply Forall_nil_2 | apply Forall_cons_2]; cbn; lia. }
  split; [exact Hok|]. split; [lia|]. split; [vm_compute; lia|].
  split; [reflexivity|].
  apply (parseDNSName_compressed [str "tv"] local_name [] 0 2 (str "local") 7);
    [exact Hok | lia | vm_compute; lia | reflexivity].
Defined.

(** ** The encoder and the query *)

Section Encoder.

Implicit Types (l nm pre packet : list byte) (ls : list (list byte)).

Lemma addDNSName_loop_ends (n : nat) nm : ∀ packet start e,
  ∃ body, addDNSName_loop n packet nm start e = packet ++ body ++ [x00].
Proof.
  assert (∀ packet start,
    ∃ body, (if decide (drop start nm = []) then packet
             else push_label packet (drop start nm)) ++ [x00]
            = packet ++ body ++ [x00]) as Hlast.
  { intros packet start. case_decide.
    - by exists [].
    - exists (u8 (N.of_nat (length (drop start nm))) :: drop start nm).
      unfold push_label. by rewrite <- (assoc_L (++)). }
  induction n as [|n IH]; intros packet start [e|]; cbn [addDNSName_loop];
    try apply Hlast.
  destruct (IH (push_label packet (substr nm start (e - start))) (e + 1)
              (find_char_from dot nm (e + 1))) as [body ->].
  exists ((u8 (N.of_nat (length (substr nm start (e - start))))
             :: substr nm start (e - start)) ++ body).
  unfold push_label. by rewrite <- !(assoc_L (++)).
Qed.

(** addDNSName only appends: the packet it is given is kept in front, and
    what it adds ends with the zero byte, for every name. *)
Lemma addDNSName_appends packet nm :
  ∃ body, addDNSName packet nm = packet ++ body ++ [x00].
Proof. apply addDNSName_loop_ends. Qed.

(** X8: the encoding of a dotted name without empty labels is two bytes
    longer than the name. *)
Theorem addDNSName_length packet ls :
  ls ≠ [] → Forall (λ l, l ≠ [] ∧ dot ∉ l) ls →
  length (addDNSName packet (join_dots ls))
  = length packet + length (join_dots ls) + 2.
Proof.
  intros Hne Hok. rewrite addDNSName_labels by done.
  rewrite !length_app, length_labels_bytes by done. cbn. lia.
Qed.

(** The loop of addDNSName on a dotted name that ends with a dot. *)
Lemma addDNSName_loop_labels_dot ls : ∀ n packet pre,
  ls ≠ [] → Forall (λ l, l ≠ [] ∧ dot ∉ l) ls →
  length (join_dots ls ++ [dot]) ≤ n →
  addDNSName_loop n packet (pre ++ join_dots ls ++ [dot]) (length pre)
    (find_char_from dot (pre ++ join_dots ls ++ [dot]) (length pre))
  = packet ++ labels_bytes ls ++ [x00].
Proof.
  induction ls as [|l ls IH]; intros n packet pre Hne Hok Hn; [done|].
  apply Forall_cons in Hok as [[Hl Hdot] Hok].
  destruct n as [|n]; [rewrite length_app in Hn; cbn in Hn; lia|].
  destruct ls as [|l' ls].
  - cbn [join_dots]. rewrite find_char_from_app.
    rewrite find_char_first by done. cbn [fmap option_fmap option_map].
    cbn [addDNSName_loop].
    replace (substr _ _ _) with l; cycle 1.
    { unfold substr. rewrite drop_app_length.
      replace (length pre + length l - length pre) with (length l) by lia.
      by rewrite take_app_length. }
    replace (length pre + length l + 1) with (length (pre ++ l ++ [dot]))
      by (rewrite !length_app; cbn; lia).
    assert (find_char_from dot (pre ++ l ++ [dot]) (length (pre ++ l ++ [dot]))
            = None) as ->.
    { unfold find_char_from. by rewrite drop_all. }
    replace (addDNSName_loop n (push_label packet l) (pre ++ l ++ [dot])
               (length (pre ++ l ++ [dot])) None)
      with ((if decide (drop (length (pre ++ l ++ [dot])) (pre ++ l ++ [dot]) = [])
             then push_label packet l
             else push_label (push_label packet l)
                    (drop (length (pre ++ l ++ [dot])) (pre ++ l ++ [dot])))
            ++ [x00]) by by destruct n.
    rewrite drop_all, decide_True by done.
    unfold push_label, labels_bytes. cbn. by rewrite app_nil_r, <- (assoc_L (++)).
  - rewrite join_dots_cons in *. rewrite <- (assoc_L (++) l). cbn [app].
    rewrite find_char_from_app, find_char_first by done.
    cbn [fmap option_fmap option_map]. cbn [addDNSName_loop].
    replace (substr _ _ _) with l; cycle 1.
    { unfold substr. rewrite drop_app_length.
      replace (length pre + length l - length pre) with (length l) by lia.
      by rewrite take_app_length. }
    replace (length pre + length l + 1) with (length (pre ++ l ++ [dot]))
      by (rewrite !length_app; cbn; lia).
    replace (pre ++ l ++ dot :: join_dots (l' :: ls) ++ [dot])
      with ((pre ++ l ++ [dot]) ++ join_dots (l' :: ls) ++ [dot])
      by by rewrite <- !(assoc_L (++)).
    rewrite IH; [|done|done|].
    + unfold push_label. rewrite !labels_bytes_cons.
      by rewrite <- !(assoc_L (++)).
    + rewrite <- (assoc_L (++) l) in Hn. cbn [app] in Hn.
      rewrite length_app in Hn. cbn [length] in Hn. lia.
Qed.

(** X9: a dot at the end of a name is not encoded: the name with the dot and
    the name without it give the same bytes, and so the decoder gives
    back the name without the dot. *)
Theorem addDNSName_trailing_dot packet ls fuel :
  ls ≠ [] → Forall label_ok ls → length ls < fuel →
  addDNSName packet (join_dots ls ++ [dot]) = addDNSName packet (join_dots ls) ∧
  parseDNSName fuel (addDNSName [] (join_dots ls ++ [dot])) 0
  = Some (Ret (join_dots ls) (length (join_dots ls) + 2)).
Proof.
  intros Hne Hok Hfuel.
  assert (Forall (λ l, l ≠ [] ∧ dot ∉ l) ls) as Hdots.
  { eapply Forall_impl; [done|]. intros l (Hmin & _ & Hdot & _).
    split; [|done]. intros ->. cbn in Hmin. lia. }
  assert (∀ packet, addDNSName packet (join_dots ls ++ [dot])
                    = packet ++ labels_bytes ls ++ [x00]) as Hdot.
  { intros p. unfold addDNSName.
    by apply (addDNSName_loop_labels_dot ls _ p []). }
  split.
  - by rewrite Hdot, addDNSName_labels.
  - rewrite Hdot. unfold parseDNSName. cbn [app].
    pose proof (parseDNSName_from_labels ls fuel [] [] [] true Hne) as Hdec.
    cbn [app length] in Hdec. rewrite Hdec; [|by eapply Forall_impl; [exact Hok|];
      intros l (Hmin & Hmax & _)|done].
    do 2 f_equal. rewrite length_labels_bytes by done. lia.
Qed.

Lemma build_query_parts (serviceType : list byte) :
  build_query serviceType
  = [x00; x00; x01; x00; x00; x01; x00; x00; x00; x00; x00; x00]
    ++ addDNSName [] serviceType ++ [x00; x0c; x00; x01].
Proof.
  unfold build_query. rewrite addDNSName_app.
  cbn. by rewrite <- (assoc_L (++)).
Qed.

Lemma join_dots_cons_ne l ls :
  ls ≠ [] → join_dots (l :: ls) = l ++ dot :: join_dots ls.
Proof. by destruct ls. Qed.

(** Every string is a dotted name: its pieces are what lies before,
    between and after its dots. *)
Lemma dotted_pieces (s : list byte) :
  ∃ ls last, Forall (λ l, dot ∉ l) ls ∧ (dot ∉ last) ∧
             s = join_dots (ls ++ [last]).
Proof.
  induction s as [|c s (ls & last & Hls & Hlast & ->)].
  { exists [], []. split_and!; [done| |done]. by intros ?%elem_of_nil. }
  destruct (decide (c = dot)) as [->|Hc].
  - exists ([] :: ls), last. split_and!; [|done|].
    + apply Forall_cons. split; [|done]. by intros ?%elem_of_nil.
    + cbn [app]. rewrite join_dots_cons_ne; [done|]. by destruct ls.
  - destruct ls as [|l ls].
    + exists [], (c :: last). split_and!; [done| |done].
      intros [?|?]%elem_of_cons; [congruence|done].
    + apply Forall_cons in Hls as [Hl Hls].
      exists ((c :: l) :: ls), last. split_and!; [|done|].
      * apply Forall_cons. split; [|done].
        intros [?|?]%elem_of_cons; [congruence|done].
      * cbn [app]. rewrite !join_dots_cons_ne by (by destruct ls). done.
Qed.

(** The loop of addDNSName on what is left of a dotted name, whatever its
    pieces are. *)
Lemma addDNSName_loop_pieces ls : ∀ last n packet pre,
  Forall (λ l, dot ∉ l) ls → (dot ∉ last) →
  length (join_dots (ls ++ [last])) ≤ n →
  addDNSName_loop n packet (pre ++ join_dots (ls ++ [last])) (length pre)
    (find_char_from dot (pre ++ join_dots (ls ++ [last])) (length pre))
  = packet ++ name_bytes ls last.
Proof.
  unfold name_bytes.
  induction ls as [|l ls IH]; intros last n packet pre Hls Hlast Hn.
  - cbn [app join_dots]. rewrite find_char_from_app, find_char_None by done.
    cbn [fmap option_fmap option_map].
    replace (addDNSName_loop n packet (pre ++ last) (length pre) None)
      with ((if decide (drop (length pre) (pre ++ last) = [])
             then packet else push_label packet (drop (length pre) (pre ++ last)))
            ++ [x00]) by by destruct n.
    rewrite drop_app_length. unfold labels_bytes. cbn [mbind list_bind app].
    case_decide; [done|]. unfold push_label. by rewrite <- (assoc_L (++)).
  - apply Forall_cons in Hls as [Hl Hls].
    cbn [app] in *. rewrite join_dots_cons_ne in * by (by destruct ls).
    rewrite find_char_from_app, find_char_first by done.
    cbn [fmap option_fmap option_map].
    destruct n as [|n].
    { rewrite length_app in Hn. cbn [length] in Hn. lia. }
    cbn [addDNSName_loop].
    replace (substr _ _ _) with l; cycle 1.
    { unfold substr. rewrite drop_app_length.
      replace (length pre + length l - length pre) with (length l) by lia.
      by rewrite take_app_length. }
    replace (length pre + length l + 1) with (length (pre ++ l ++ [dot]))
      by (rewrite !length_app; cbn; lia).
    replace (pre ++ l ++ dot :: join_dots (ls ++ [last]))
      with ((pre ++ l ++ [dot]) ++ join_dots (ls ++ [last]))
      by by rewrite <- !(assoc_L (++)).
    rewrite IH; [|done|done|rewrite length_app in Hn; cbn [length] in Hn; lia].
    unfold push_label. rewrite labels_bytes_cons.
    by rewrite <- !(assoc_L (++)).
Qed.

Lemma addDNSName_pieces packet ls last :
  Forall (λ l, dot ∉ l) ls → (dot ∉ last) →
  addDNSName packet (join_dots (ls ++ [last])) = packet ++ name_bytes ls last.
Proof.
  intros Hls Hlast. unfold addDNSName.
  by apply (addDNSName_loop_pieces ls last _ packet []).
Qed.

(** C9: the query starts with a 12-byte header whose big-endian fields are
    id 0, flags 0x0100, in which the response bit (bit 15) and the opcode
    (bits 11-14) are clear, question count 1 and answer, authority and
    additional counts 0.  The rest of the message is one question: the
    service name, then type 12 (PTR) and class 1 (IN), big-endian.  The
    service name is written piece by piece, each piece that a dot ends as
    its length and its bytes, the last piece likewise unless it is empty,
    and a zero byte; for a name of non-empty labels these are the labels
    of the name, each after its length, and a zero byte. *)
Theorem build_query_layout (serviceType : list byte) :
  let query := build_query serviceType in
  get16 query 0 = Some 0%N ∧
  get16 query 2 = Some 0x0100%N ∧
  N.testbit 0x0100 15 = false ∧ N.land 0x0100 0x7800 = 0%N ∧
  get16 query 4 = Some 1%N ∧
  get16 query 6 = Some 0%N ∧
  get16 query 8 = Some 0%N ∧
  get16 query 10 = Some 0%N ∧
  (∃ ls last,
     Forall (λ l, dot ∉ l) ls ∧ (dot ∉ last) ∧
     serviceType = join_dots (ls ++ [last]) ∧
     drop header_size query = name_bytes ls last ++ [x00; x0c; x00; x01]) ∧
  (∀ ls, ls ≠ [] → Forall (λ l, l ≠ [] ∧ dot ∉ l) ls →
     serviceType = join_dots ls →
     drop header_size query = labels_bytes ls ++ [x00] ++ [x00; x0c; x00; x01]).
Proof.
  intros query. unfold query. rewrite build_query_parts.
  split_and!; try reflexivity.
  - destruct (dotted_pieces serviceType) as (ls & last & Hls & Hlast & ->).
    exists ls, last. split_and!; [done..|].
    rewrite addDNSName_pieces by done. done.
  - intros ls Hne Hok ->. rewrite addDNSName_labels by done.
    cbn [drop app header_size]. by rewrite <- (assoc_L (++)).
Qed.

(** X10: the question of the query reads back with the decoder of the
    responses: at offset 12 parseDNSName gives the service name, and the
    two fields after it are 12 and 1. *)
Theorem build_query_question ls fuel :
  ls ≠ [] → Forall label_ok ls → length ls < fuel →
  let query := build_query (join_dots ls) in
  let after := header_size + length (join_dots ls) + 2 in
  parseDNSName fuel query header_size = Some (Ret (join_dots ls) after) ∧
  get16 query after = Some 12%N ∧
  get16 query (after + 2) = Some 1%N ∧
  length query = after + 4.
Proof.
  intros Hne Hok Hfuel query after. unfold query, after, header_size.
  assert (Forall (λ l, l ≠ [] ∧ dot ∉ l) ls) as Hdots.
  { eapply Forall_impl; [done|]. intros l (Hmin & _ & Hdot & _).
    split; [|done]. intros ->. cbn in Hmin. lia. }
  pose (hdr := [x00; x00; x01; x00; x00; x01; x00; x00; x00; x00; x00; x00]).
  assert (length hdr = 12) as Hhdr by done.
  assert (build_query (join_dots ls)
          = hdr ++ labels_bytes ls ++ x00 :: [x00; x0c; x00; x01]) as ->.
  { rewrite build_query_parts, addDNSName_labels by done.
    unfold hdr. cbn [app]. by rewrite <- (assoc_L (++)). }
  clearbody hdr.
  pose proof (length_labels_bytes ls Hne) as Hlen.
  split_and!.
  - unfold parseDNSName. rewrite <- Hhdr.
    rewrite (parseDNSName_from_labels ls fuel hdr _ [] true); [|done| |done].
    + do 2 f_equal. lia.
    + eapply Forall_impl; [exact Hok|]. by intros l (Hmin & Hmax & _).
  - replace (hdr ++ labels_bytes ls ++ x00 :: [x00; x0c; x00; x01])
      with ((hdr ++ labels_bytes ls ++ [x00]) ++ htons 12 ++ [x00; x01])
      by by rewrite <- !(assoc_L (++)).
    replace (12 + length (join_dots ls) + 2)
      with (length (hdr ++ labels_bytes ls ++ [x00]))
      by (rewrite !length_app; cbn; lia).
    by rewrite get16_htons.
  - replace (hdr ++ labels_bytes ls ++ x00 :: [x00; x0c; x00; x01])
      with ((hdr ++ labels_bytes ls ++ [x00; x00; x0c]) ++ htons 1 ++ [])
      by by rewrite <- !(assoc_L (++)).
    replace (12 + length (join_dots ls) + 2 + 2)
      with (length (hdr ++ labels_bytes ls ++ [x00; x00; x0c]))
      by (rewrite !length_app; cbn; lia).
    by rewrite get16_htons.
  - rewrite !length_app. cbn. lia.
Qed.

(** X11: the service hears its own query on the multicast group and leaves it
    alone: for every service type the query built by sendQuery changes
    nothing and calls nobody. *)
Theorem own_query_ignored (serviceType sender : list byte) fuel
    (devs : list DeviceInfo) :
  parseMDNSResponse fuel (build_query serviceType) sender devs
  = Some (Processed devs []).
Proof.
  unfold parseMDNSResponse. rewrite build_query_parts.
  rewrite decide_False
    by (rewrite length_app; unfold header_size; cbn [length]; lia).
  cbn [app]. unfold get16. cbn [lookup list_lookup].
  change (be16 x01 x00) with 0x0100%N. by rewrite decide_True.
Qed.

End Encoder.

(** C9 on the query for the target service. *)
Lemma build_query_layout_witness :
  let ls := [str "_leboremote"; str "_tcp"; str "local"] in
  ls ≠ [] ∧ Forall (λ l, l ≠ [] ∧ dot ∉ l) ls ∧
  target_service = join_dots ls ∧
  drop header_size (build_query target_service)
  = labels_bytes ls ++ [x00] ++ [x00; x0c; x00; x01].
Proof.
  intros ls.
  assert (Forall (λ l, l ≠ [] ∧ dot ∉ l) ls) as Hok.
  { repeat first [apply Forall_nil_2 | apply Forall_cons_2];
      (split; [discriminate | by apply (bool_decide_eq_false_1 _)]). }
  split; [discriminate|]. split; [exact Hok|]. split; [reflexivity|].
  apply (build_query_layout target_service); [discriminate|exact Hok|reflexivity].
Defined.

(** X8 on the name of [tv] written after a header. *)
Lemma addDNSName_length_witness :
  tv_labels ≠ [] ∧ Forall (λ l, l ≠ [] ∧ dot ∉ l) tv_labels ∧
  length (addDNSName (response_header 0) (join_dots tv_labels))
  = length (response_header 0) + length (join_dots tv_labels) + 2.
Proof.
  assert (Forall (λ l, l ≠ [] ∧ dot ∉ l) tv_labels) as Hok.
  { repeat first [apply Forall_nil_2 | apply Forall_cons_2];
      (split; [discriminate | by apply (bool_decide_eq_false_1 _)]). }
  split; [discriminate|]. split; [exact Hok|].
  apply (addDNSName_length (response_header 0) tv_labels);
    [discriminate | exact Hok].
Defined.

(** X9 on the name of [tv]. *)
Lemma addDNSName_trailing_dot_witness :
  tv_labels ≠ [] ∧ Forall label_ok tv_labels ∧ length tv_labels < 5 ∧
  addDNSName [] (join_dots tv_labels ++ [dot])
  = addDNSName [] (join_dots tv_labels) ∧
  parseDNSName 5 (addDNSName [] (join_dots tv_labels ++ [dot])) 0
  = Some (Ret (join_dots tv_labels) (length (join_dots tv_labels) + 2)).
Proof.
  assert (Forall label_ok tv_labels) as Hok.
  { repeat first [apply Forall_nil_2 | apply Forall_cons_2];
      (split; [cbn; lia|]; split; [cbn; lia|];
       split; by apply (bool_decide_eq_false_1 _)). }
  split; [discriminate|]. split; [exact Hok|]. split; [cbn; lia|].
  apply (addDNSName_trailing_dot [] tv_labels 5);
    [discriminate | exact Hok | cbn; lia].
Defined.

(** X10 on the query for the target service. *)
Lemma build_query_question_witness :
  let ls := [str "_leboremote"; str "_tcp"; str "local"] in
  ls ≠ [] ∧ Forall label_ok ls ∧ length ls < 4 ∧
  parseDNSName 4 (build_query (join_dots ls)) header_size
  = Some (Ret (join_dots ls) (header_size + length (join_dots ls) + 2)) ∧
  get16 (build_query (join_dots ls)) (header_size + length (join_dots ls) + 2)
  = Some 12%N ∧
  get16 (build_query (join_dots ls))
    (header_size + length (join_dots ls) + 2 + 2) = Some 1%N ∧
  length (build_query (join_dots ls))
  = header_size + length (join_dots ls) + 2 + 4.
Proof.
  intros ls.
  assert (Forall label_ok ls) as Hok.
  { repeat first [apply Forall_nil_2 | apply Forall_cons_2];
      (split; [cbn; lia|]; split; [cbn; lia|];
       split; by apply (bool_decide_eq_false_1 _)). }
  split; [discriminate|]. split; [exact Hok|]. split; [cbn; lia|].
  apply (build_query_question ls 4); [discriminate | exact Hok | cbn; lia].
Defined.

(** ** Attributes *)

Section Attributes.

Implicit Types (m result : gmap (list byte) (list byte)) (es : list txt_entry)
  (data : list byte).

(** Every payload decodes as the entries it is made of. *)
Lemma parseTXT_fold data :
  ∃ es, Forall entry_wf es ∧ ∀ m, parseTXT data m = foldl store m es.
Proof.
  destruct (txt_payload_decomposes data) as (es & tail & -> & Hwf & Htail).
  exists es. split; [done|]. intros m. unfold parseTXT.
  by apply (parseTXT_loop_entries es _ []).
Qed.

Lemma foldl_store_union es : ∀ m m0,
  foldl store (m ∪ m0) es = foldl store m es ∪ m0.
Proof.
  induction es as [|e es IH]; intros m m0; [done|]. cbn [foldl].
  destruct e as [key value|text]; cbn [store]; [|apply IH].
  by rewrite insert_union_l, IH.
Qed.

(** X12: decoding a payload into attributes that are already there is decoding
    it into no attributes and laying the result over the old ones: what the
    payload sets wins, everything else is kept.  So a second TXT record of
    a datagram adds to the first and replaces only the keys it repeats. *)
Theorem parseTXT_overlay data m :
  parseTXT data m = parseTXT data ∅ ∪ m.
Proof.
  destruct (parseTXT_fold data) as (es & _ & Hfold).
  rewrite !Hfold. rewrite <- (left_id_L ∅ (∪) m) at 1.
  apply foldl_store_union.
Qed.

Lemma foldl_store_list_to_map (l : list (list byte * list byte)) : ∀ m,
  NoDup l.*1 →
  foldl store m (key_value <$> l) = list_to_map l ∪ m.
Proof.
  induction l as [|[k v] l IH]; intros m Hnd.
  { cbn. by rewrite (left_id_L ∅ (∪)). }
  apply NoDup_cons in Hnd as [Hk Hnd]. cbn [fmap list_fmap foldl].
  rewrite IH by done. cbn [key_value store fst snd list_to_map foldr].
  cbn. rewrite <- insert_union_l.
  symmetry. apply insert_union_r. by apply not_elem_of_list_to_map_1.
Qed.

(** X13: attributes survive the wire: the payload written for a map whose keys
    hold no [=] and whose entries fit a length byte decodes to that map. *)
Theorem parseTXT_attributes_bytes m :
  map_Forall (λ k v, (equals ∉ k) ∧ length k + 1 + length v ≤ 255) m →
  parseTXT (attributes_bytes m) ∅ = m.
Proof.
  intros Hok. unfold attributes_bytes, parseTXT.
  pose proof (parseTXT_loop_entries (key_value <$> map_to_list m)
                (length (txt_bytes (key_value <$> map_to_list m) ++ []))
                [] [] ∅) as Hdec.
  cbn [app length] in Hdec. rewrite app_nil_r in Hdec. rewrite Hdec; try done.
  - rewrite foldl_store_list_to_map by apply NoDup_fst_map_to_list.
    by rewrite (right_id_L ∅ (∪)), list_to_map_to_list.
  - apply Forall_fmap, Forall_forall. intros [k v] Hkv.
    apply elem_of_map_to_list in Hkv. apply Hok in Hkv as [Hk Hlen].
    split; [|done]. cbn. rewrite length_app. cbn. lia.
Qed.

(** One complete entry at the cursor of the browser's decoder. *)
Lemma parseTXTRecord_loop_entry n pre e rest result :
  entry_wf e →
  parseTXTRecord_loop (S n) (pre ++ entry_bytes e ++ rest) (length pre) result
  = parseTXTRecord_loop n ((pre ++ entry_bytes e) ++ rest)
      (length (pre ++ entry_bytes e)) (store result e).
Proof.
  intros [Hlen Heq]. cbn [parseTXTRecord_loop]. unfold entry_bytes. cbn [app].
  rewrite list_lookup_middle by done.
  rewrite nval_u8 by done.
  rewrite decide_True by (rewrite !length_app; cbn; rewrite length_app; lia).
  replace (take _ (drop _ _)) with (entry_text e); cycle 1.
  { rewrite (cons_middle _ pre), (assoc_L (++)).
    rewrite drop_app_length' by (rewrite length_app; cbn; lia).
    by rewrite take_app_length. }
  rewrite <- (assoc_L (++)). cbn [app].
  replace (S (length pre) + length (entry_text e))
    with (length (pre ++ u8 (N.of_nat (length (entry_text e))) :: entry_text e))
    by (rewrite length_app; cbn; lia).
  f_equal. destruct e as [key value|text]; cbn [entry_text store] in *.
  - rewrite find_char_first by done.
    rewrite take_app_length.
    by rewrite (cons_middle _ key), (assoc_L (++)), drop_app_length'
      by (rewrite length_app; cbn; lia).
  - by rewrite find_char_None.
Qed.

Lemma parseTXTRecord_loop_entries es : ∀ n pre tail result,
  Forall entry_wf es → cut_short tail →
  length (txt_bytes es ++ tail) ≤ n →
  parseTXTRecord_loop n (pre ++ txt_bytes es ++ tail) (length pre) result
  = foldl store result es.
Proof.
  induction es as [|e es IH]; intros n pre tail result Hwf Htail Hn.
  - cbn. destruct n as [|n]; [done|]. cbn [parseTXTRecord_loop].
    destruct tail as [|len rest].
    + by rewrite lookup_ge_None_2 by (rewrite length_app; cbn; lia).
    + rewrite list_lookup_middle by done. cbn in Htail.
      rewrite decide_False by (rewrite length_app; cbn; lia).
      destruct n as [|n]; [done|]. cbn [parseTXTRecord_loop].
      by rewrite lookup_ge_None_2 by (rewrite length_app; cbn; lia).
  - apply Forall_cons in Hwf as [He Hes].
    unfold txt_bytes in *. rewrite bind_cons in *.
    destruct n as [|n].
    { rewrite !length_app, length_entry_bytes in Hn. lia. }
    rewrite <- (assoc_L (++)).
    rewrite parseTXTRecord_loop_entry by done.
    rewrite <- (assoc_L (++) pre).
    rewrite (assoc_L (++) pre). rewrite IH; [done..|].
    rewrite !length_app, length_entry_bytes in Hn. rewrite length_app. lia.
Qed.

(** X14: the two TXT decoders of the repository agree on every payload: the
    browser's parseTXTRecord returns what parseTXT puts into an empty map,
    although one skips an entry that is cut short and the other stops
    at it. *)
Theorem parseTXTRecord_parseTXT data :
  parseTXTRecord data = parseTXT data ∅.
Proof.
  destruct (txt_payload_decomposes data) as (es & tail & -> & Hwf & Htail).
  unfold parseTXTRecord, parseTXT.
  pose proof (parseTXT_loop_entries es _ [] tail ∅ Hwf Htail (le_n _)) as H1.
  pose proof (parseTXTRecord_loop_entries es _ [] tail ∅ Hwf Htail (le_n _)) as H2.
  cbn [app length] in H1, H2. by rewrite H1, H2.
Qed.

End Attributes.

(** X13 on the attributes of [tv]. *)
Lemma parseTXT_attributes_bytes_witness :
  map_Forall (λ k v, (equals ∉ k) ∧ length k + 1 + length v ≤ 255)
    (txtRecords tv) ∧
  parseTXT (attributes_bytes (txtRecords tv)) ∅ = txtRecords tv.
Proof.
  assert (map_Forall (λ k v, (equals ∉ k) ∧ length k + 1 + length v ≤ 255)
            (txtRecords tv)) as Hok.
  { apply map_Forall_singleton.
    split; [by apply (bool_decide_eq_false_1 _) | cbn; lia]. }
  split; [exact Hok|].
  apply (parseTXT_attributes_bytes (txtRecords tv)). exact Hok.
Defined.

(** ** Records and responses read back *)

Section ReadBack.

Implicit Types (buf pre post rdata sender : list byte) (ls : list (list byte)).

Lemma get16_app_r pre rest i :
  get16 (pre ++ rest) (length pre + i) = get16 rest i.
Proof.
  unfold get16.
  rewrite lookup_app_r by lia.
  replace (S (length pre + i)) with (length pre + S i) by lia.
  rewrite (lookup_app_r pre rest (length pre + S i)) by lia.
  by replace (length pre + i - length pre) with i by lia;
     replace (length pre + S i - length pre) with (S i) by lia.
Qed.

Lemma be16_htons (v : N) :
  be16 (u8 (N.shiftr v 8)) (u8 v) = (v mod 65536)%N.
Proof.
  rewrite be16_value, !val_u8.
  rewrite N.shiftr_div_pow2. change (2 ^ 8)%N with 256%N.
  change 65536%N with (256 * 256)%N.
  rewrite (N.Div0.mod_mul_r v 256 256). lia.
Qed.

(** A record as a responder writes it, anywhere in a message, is read back
    by parseRecordHeader: the name, the type, the length of the data and
    the place where the data begin; the data are the bytes found there. *)
Lemma parseRecordHeader_record_bytes ls type class ttl rdata pre post fuel :
  let buf := pre ++ record_bytes ls type class ttl rdata ++ post in
  let start := length pre + length (labels_bytes ls) + 11 in
  ls ≠ [] → Forall (λ l, 1 ≤ length l ∧ length l ≤ 63) ls →
  (type < 65536)%N → (N.of_nat (length rdata) < 65536)%N →
  length ls < fuel →
  parseRecordHeader fuel buf (length pre)
  = Some (Ret {| rr_name := join_dots ls; rr_type := type;
                 rr_rdlength := length rdata; rr_rdata := start |} start) ∧
  take (length rdata) (drop start buf) = rdata.
Proof.
  intros buf start Hne Hok Htype Hlen Hfuel.
  set (fields := htons type ++ htons class ++ htons (N.shiftr ttl 16) ++
                 htons ttl ++ htons (N.of_nat (length rdata))).
  assert (length fields = 10) as Hfields by done.
  assert (get16 (fields ++ rdata ++ post) 0 = Some type) as Hget0.
  { change (get16 (fields ++ rdata ++ post) 0)
      with (Some (be16 (u8 (N.shiftr type 8)) (u8 type))).
    by rewrite be16_htons, N.mod_small. }
  assert (get16 (fields ++ rdata ++ post) 8 = Some (N.of_nat (length rdata)))
    as Hget8.
  { change (get16 (fields ++ rdata ++ post) 8)
      with (Some (be16 (u8 (N.shiftr (N.of_nat (length rdata)) 8))
                       (u8 (N.of_nat (length rdata))))).
    by rewrite be16_htons, N.mod_small. }
  assert (parseDNSName_from fuel buf (length pre) [] true
          = Some (Ret (join_dots ls) (length (pre ++ labels_bytes ls ++ [x00]))))
    as Hname.
  { unfold buf, record_bytes. rewrite <- !(assoc_L (++)). cbn [app].
    rewrite (parseDNSName_from_labels ls fuel pre _ [] true) by done.
    do 2 f_equal. rewrite !length_app. cbn. lia. }
  assert (buf = (pre ++ labels_bytes ls ++ [x00]) ++ fields ++ rdata ++ post)
    as Hbuf.
  { unfold buf, record_bytes, fields. by rewrite <- !(assoc_L (++)). }
  assert (length (pre ++ labels_bytes ls ++ [x00]) + 10 = start) as Hstart
    by (unfold start; rewrite !length_app; cbn; lia).
  clearbody buf start fields.
  set (P := pre ++ labels_bytes ls ++ [x00]) in *. clearbody P. subst buf start.
  assert (length (P ++ fields ++ rdata ++ post)
          = length P + 10 + length rdata + length post) as Hlength
    by (rewrite !length_app; lia).
  split.
  - unfold parseRecordHeader, parseDNSName. rewrite Hname.
    rewrite decide_False by lia.
    pose proof (get16_app_r P (fields ++ rdata ++ post) 0) as Hzero.
    rewrite Nat.add_0_r in Hzero.
    rewrite Hzero, Hget0, get16_app_r, Hget8, Nat2N.id.
    by rewrite decide_False by lia.
  - rewrite <- Hfields, <- length_app, (assoc_L (++)).
    rewrite drop_app_length. by rewrite take_app_length.
Qed.

End ReadBack.

(** ** A device announced *)

Section Announce.

Implicit Types (sender : list byte) (ls : list (list byte)) (es : list txt_entry)
  (devs : list DeviceInfo).

Lemma contains_nonempty (pat s : list byte) :
  pat ≠ [] → contains pat s = true → s ≠ [].
Proof. intros Hpat Hc ->. by rewrite contains_nil_r in Hc. Qed.

(** X15: from the wire to the device list: a response with the response bit
    set whose one answer is a TXT record for a name that holds the target
    service name is reconciled as the device of that name, with the address
    of the sender and the attributes that the entries of the record store,
    whatever the id, the other flags and the TTL are. *)
Theorem parseMDNSResponse_txt_response h_id h_flags ls ttl es sender devs fuel :
  (h_flags < 65536)%N → N.testbit h_flags 15 = true →
  ls ≠ [] → Forall (λ l, 1 ≤ length l ∧ length l ≤ 63) ls →
  contains target_service (join_dots ls) = true →
  Forall entry_wf es → (N.of_nat (length (txt_bytes es)) < 65536)%N →
  length ls < fuel →
  parseMDNSResponse fuel (txt_response h_id h_flags ls ttl es) sender devs
  = let '(devs', calls) :=
      reconcile devs {| name := join_dots ls; ip := sender;
                        txtRecords := foldl store ∅ es |} in
    Some (Processed devs' calls).
Proof.
  intros Hflags Hbit Hne Hok Htarget Hwf Hlen Hfuel.
  unfold txt_response.
  set (hdr := header_bytes _).
  set (record := record_bytes ls 16 1 ttl (txt_bytes es)).
  assert (length hdr = 12) as Hhdr by done.
  assert (get16 (hdr ++ record) 2 = Some h_flags) as Hget2.
  { change (get16 (hdr ++ record) 2)
      with (Some (be16 (u8 (N.shiftr h_flags 8)) (u8 h_flags))).
    by rewrite be16_htons, N.mod_small. }
  assert (get16 (hdr ++ record) 4 = Some 0%N) as Hget4 by done.
  assert (get16 (hdr ++ record) 6 = Some 1%N) as Hget6 by done.
  destruct (parseRecordHeader_record_bytes ls 16 1 ttl (txt_bytes es) hdr [] fuel)
    as [Hrr Hdata]; [done..|].
  rewrite app_nil_r in Hrr, Hdata. fold record in Hrr, Hdata.
  clearbody hdr. unfold parseMDNSResponse, header_size.
  rewrite decide_False by (rewrite length_app; lia).
  rewrite Hget2, Hget4, Hget6.
  rewrite decide_False; cycle 1.
  { intros Hland. apply land_bit15 in Hland. congruence. }
  change (N.to_nat 0) with 0. change (N.to_nat 1) with 1.
  cbn [skip_questions parse_answers]. rewrite Hhdr in Hrr, Hdata. rewrite Hrr.
  unfold apply_record. cbn [rr_name rr_type rr_rdlength rr_rdata].
  rewrite Htarget. rewrite decide_True by done. cbn [name ip txtRecords].
  rewrite Hdata.
  assert (parseTXT (txt_bytes es) ∅ = foldl store ∅ es) as ->.
  { unfold parseTXT.
    pose proof (parseTXT_loop_entries es _ [] [] ∅ Hwf I (le_n _)) as Hdec.
    cbn [app length] in Hdec. by rewrite app_nil_r in Hdec. }
  unfold notify. cbn [name].
  rewrite decide_False; [done|].
  apply (contains_nonempty target_service); [discriminate|exact Htarget].
Qed.

End Announce.

(** X15 on a response that announces [tv] to a service that knows [box]. *)
Lemma parseMDNSResponse_txt_response_witness :
  (0x8400 < 65536)%N ∧ N.testbit 0x8400 15 = true ∧
  tv_labels ≠ [] ∧ Forall (λ l, 1 ≤ length l ∧ length l ≤ 63) tv_labels ∧
  contains target_service (join_dots tv_labels) = true ∧
  Forall entry_wf tv_entries ∧
  (N.of_nat (length (txt_bytes tv_entries)) < 65536)%N ∧
  length tv_labels < 5 ∧
  parseMDNSResponse 5 (txt_response 0 0x8400 tv_labels 120 tv_entries)
    (str "192.168.1.20") [box]
  = Some (Processed [box; tv] [tv]).
Proof.
  assert (Forall (λ l, 1 ≤ length l ∧ length l ≤ 63) tv_labels) as Hok.
  { repeat first [apply Forall_nil_2 | apply Forall_cons_2]; cbn; lia. }
  assert (Forall entry_wf tv_entries) as Hwf.
  { repeat first [apply Forall_nil_2 | apply Forall_cons_2].
    split; [cbn; lia | by apply (bool_decide_eq_false_1 _)]. }
  split; [lia|]. split; [reflexivity|]. split; [discriminate|].
  split; [exact Hok|]. split; [reflexivity|]. split; [exact Hwf|].
  split; [reflexivity|]. split; [cbn; lia|].
  apply (parseMDNSResponse_txt_response 0 0x8400 tv_labels 120 tv_entries
           (str "192.168.1.20") [box] 5);
    [lia | reflexivity | discriminate | exact Hok | reflexivity | exact Hwf
    | reflexivity | cbn; lia].
Defined.

(** ** The device list: reconcile and addDevice *)

Section Registry.

Implicit Types (devs : list DeviceInfo) (cand device d : DeviceInfo).

Lemma list_find_insert_same devs cand i d d' :
  list_find (λ d, name d = name cand) devs = Some (i, d) →
  name d' = name cand →
  list_find (λ d, name d = name cand) (<[i := d']> devs) = Some (i, d').
Proof.
  intros Hfind Hname. apply list_find_Some in Hfind as (Hi & Hd & Hfirst).
  apply list_find_Some. split_and!; [|done|].
  - apply list_lookup_insert_eq. by eapply lookup_lt_Some.
  - intros j y Hj Hlt. rewrite list_lookup_insert_ne in Hj by lia.
    by eapply Hfirst.
Qed.

Lemma list_find_snoc devs cand :
  list_find (λ d, name d = name cand) devs = None →
  list_find (λ d, name d = name cand) (devs ++ [cand])
  = Some (length devs, cand).
Proof.
  intros Hnone. apply list_find_Some. split_and!; [|done|].
  - by apply list_lookup_middle.
  - intros j y Hj Hlt. rewrite lookup_app_l in Hj by done.
    eapply list_find_None, Forall_forall in Hnone; [done|].
    by eapply list_elem_of_lookup_2.
Qed.

(** X16: an announcement that is repeated leaves the list as the first one
    left it. *)
Theorem reconcile_twice devs cand :
  (reconcile (reconcile devs cand).1 cand).1 = (reconcile devs cand).1.
Proof.
  unfold reconcile at 2 3.
  destruct (list_find _ devs) as [[i it]|] eqn:Hfind.
  - pose proof Hfind as (_ & Hname & _)%list_find_Some.
    case_decide as Hattrs; cbn [fst].
    + unfold reconcile. by rewrite Hfind, decide_True.
    + unfold reconcile.
      erewrite list_find_insert_same; [|done|done].
      rewrite decide_False by done. cbn [fst name ip txtRecords].
      by rewrite list_insert_insert_eq.
  - cbn [fst]. unfold reconcile. rewrite list_find_snoc by done.
    case_decide; cbn [fst]; [done|].
    rewrite insert_app_r_alt, Nat.sub_diag by done. by destruct cand.
Qed.

(** X17: after addDevice the first entry of the device's name carries the
    attributes of the device; an entry that was there keeps its address,
    and no other entry changes. *)
Theorem addDevice_lookup devs device :
  ∃ i d, list_find (λ d, name d = name device) (addDevice devs device)
           = Some (i, d) ∧
         txtRecords d = txtRecords device ∧
         (∀ d0, devs !! i = Some d0 → ip d = ip d0) ∧
         (∀ j, j ≠ i → j < length devs → addDevice devs device !! j = devs !! j).
Proof.
  unfold addDevice.
  destruct (list_find _ devs) as [[i it]|] eqn:Hfind.
  - pose proof Hfind as (_ & Hname & _)%list_find_Some.
    eexists i, _. split; [by eapply list_find_insert_same|].
    apply list_find_Some in Hfind as (Hi & _). split_and!; [done| |].
    + intros d0 Hd0. by simplify_eq.
    + intros j Hj _. by apply list_lookup_insert_ne.
  - exists (length devs), device. split; [by apply list_find_snoc|].
    split_and!; [done| |].
    + intros d0 Hd0. apply lookup_lt_Some in Hd0. lia.
    + intros j _ Hj. by apply lookup_app_l.
Qed.

(** X18: addDevice and reconcile keep the same names in the same places: both
    append a new name and neither removes or renames an entry; so
    addDevice, too, never makes two entries of one name. *)
Theorem addDevice_names devs device :
  name <$> addDevice devs device = name <$> (reconcile devs device).1 ∧
  (NoDup (name <$> devs) → NoDup (name <$> addDevice devs device)).
Proof.
  assert (name <$> addDevice devs device = name <$> (reconcile devs device).1)
    as Hnames.
  { unfold addDevice, reconcile.
    destruct (list_find _ devs) as [[i it]|] eqn:Hfind; [|done].
    apply list_find_Some in Hfind as (Hi & _).
    rewrite list_fmap_insert. cbn [name].
    rewrite list_insert_id by by rewrite list_lookup_fmap, Hi.
    case_decide; cbn [fst]; [done|].
    rewrite list_fmap_insert. cbn [name].
    by rewrite list_insert_id by by rewrite list_lookup_fmap, Hi. }
  split; [done|]. intros Hnd. rewrite Hnames. by apply reconcile_NoDup.
Qed.

(** X19: storing the same device twice is storing it once. *)
Theorem addDevice_twice devs device :
  addDevice (addDevice devs device) device = addDevice devs device.
Proof.
  unfold addDevice at 2 3.
  destruct (list_find _ devs) as [[i it]|] eqn:Hfind.
  - pose proof Hfind as (_ & Hname & _)%list_find_Some.
    unfold addDevice. erewrite list_find_insert_same; [|done|done].
    cbn [name ip txtRecords]. by rewrite list_insert_insert_eq.
  - unfold addDevice. rewrite list_find_snoc by done.
    rewrite insert_app_r_alt, Nat.sub_diag by done. by destruct device.
Qed.

End Registry.

(** X18 on the list of [tv] and [box] and the device [tv_moved]. *)
Lemma addDevice_names_witness :
  name <$> addDevice [tv; box] tv_moved
  = name <$> (reconcile [tv; box] tv_moved).1 ∧
  NoDup (name <$> [tv; box]) ∧
  NoDup (name <$> addDevice [tv; box] tv_moved).
Proof.
  assert (NoDup (name <$> [tv; box])) as Hnd.
  { apply (bool_decide_unpack _). reflexivity. }
  split; [|split; [exact Hnd|]].
  - apply (proj1 (addDevice_names [tv; box] tv_moved)).
  - apply (proj2 (addDevice_names [tv; box] tv_moved)). exact Hnd.
Defined.

(** ** The service over its lifetime *)

Section Lifetime.

Implicit Types (st : Impl) (net : Network) (serviceType : list byte).

(** X20: startDiscovery succeeds exactly when the service is not running and
    the five network calls succeed; it then runs with the new socket and a
    receive thread, the device list as it was, after one query for the
    service type and nothing else sent. *)
Theorem startDiscovery_success net serviceType st :
  let '(ok, st', events) := startDiscovery net serviceType st in
  (ok = true ↔
     running st = false ∧ is_Some (net_socket net) ∧ net_reuseaddr net = true ∧
     net_bind net = true ∧ net_join net = true ∧ net_sendto net = true) ∧
  (ok = true →
     ∃ fd, net_socket net = Some fd ∧
       st' = {| running := true; socket_ := Some fd; receiveThread := true;
                discoveredDevices := discoveredDevices st |} ∧
       events = [CallSocket; CallReuseAddr fd; CallBind fd; CallJoinGroup fd;
                 CallSendto fd (build_query serviceType); ThreadSpawn]).
Proof.
  unfold startDiscovery, sendQuery.
  destruct (running st); [split; [split; [done|by intros [? _]]|done]|].
  destruct (net_socket net) as [fd|];
    [|split; [split; [done|by intros (_ & [? ?] & _)]|done]].
  destruct (net_reuseaddr net), (net_bind net), (net_join net),
    (net_sendto net); cbn;
    (split;
     [split;
      [intros Hok; try done; split_and!; first [done|by eexists]
      |by intros (_ & _ & ? & ? & ? & ?)]
     |intros Hok; try done; by exists fd]).
Qed.

(** X21: a start that fails starts nothing: the running flag, the thread and
    the device list are as before and no thread is spawned.  When a socket
    was created the last thing the call does is to close it, and [socket_]
    is left holding the closed descriptor. *)
Theorem startDiscovery_failure net serviceType st :
  let '(ok, st', events) := startDiscovery net serviceType st in
  ok = false →
  running st' = running st ∧ receiveThread st' = receiveThread st ∧
  discoveredDevices st' = discoveredDevices st ∧
  (ThreadSpawn ∉ events) ∧
  (running st = false → ∀ fd, net_socket net = Some fd →
     last events = Some (CallClose fd) ∧ socket_ st' = Some fd).
Proof.
  unfold startDiscovery, sendQuery.
  destruct (running st) eqn:Hrun.
  { intros _. split_and!; [done..|by apply not_elem_of_nil|done]. }
  destruct (net_socket net) as [fd|].
  2:{ intros _. split_and!; [done..| |done].
      by intros ?%list_elem_of_singleton. }
  destruct (net_reuseaddr net), (net_bind net), (net_join net),
    (net_sendto net); cbn; intros Hok; try done;
    (split_and!; [done..| |by intros _ ? [= <-]]);
    rewrite !elem_of_cons; intros H;
    repeat (destruct H as [H|H]; [done|]); by apply elem_of_nil in H.
Qed.




End Lifetime.

(** X20 on a network on which every call succeeds. *)
Lemma startDiscovery_success_witness :
  startDiscovery good_network target_service Impl_init
  = (true, started_state,
     [CallSocket; CallReuseAddr 4; CallBind 4; CallJoinGroup 4;
      CallSendto 4 (build_query target_service); ThreadSpawn]) ∧
  ∃ fd, net_socket good_network = Some fd ∧
    started_state = {| running := true; socket_ := Some fd;
                       receiveThread := true;
                       discoveredDevices := discoveredDevices Impl_init |} ∧
    [CallSocket; CallReuseAddr 4; CallBind 4; CallJoinGroup 4;
     CallSendto 4 (build_query target_service); ThreadSpawn]
    = [CallSocket; CallReuseAddr fd; CallBind fd; CallJoinGroup fd;
       CallSendto fd (build_query target_service); ThreadSpawn].
Proof.
  split; [reflexivity|].
  apply (proj2 (startDiscovery_success good_network target_service Impl_init)).
  reflexivity.
Defined.

(** X21 on a network on which [bind] fails. *)
Lemma startDiscovery_failure_witness :
  let r := startDiscovery bind_fails_network target_service Impl_init in
  r.1.1 = false ∧
  running r.1.2 = running Impl_init ∧
  receiveThread r.1.2 = receiveThread Impl_init ∧
  discoveredDevices r.1.2 = discoveredDevices Impl_init ∧
  (ThreadSpawn ∉ r.2) ∧
  (running Impl_init = false → ∀ fd, net_socket bind_fails_network = Some fd →
     last r.2 = Some (CallClose fd) ∧ socket_ r.1.2 = Some fd).
Proof.
  intros r. split; [reflexivity|].
  apply (startDiscovery_failure bind_fails_network target_service Impl_init).
  reflexivity.
Defined.




(** ** A device announced by two answers *)

Section TwoAnswers.

Implicit Types (sender rdata : list byte) (ls : list (list byte))
  (es : list txt_entry) (devs : list DeviceInfo).

Lemma length_record_bytes ls type class ttl rdata :
  length (record_bytes ls type class ttl rdata)
  = length (labels_bytes ls) + 11 + length rdata.
Proof. unfold record_bytes. rewrite !length_app. cbn. lia. Qed.

(** X25: a response whose first answer is a record of another type for a name
    that holds the target service name and whose second answer is a TXT
    record: the first record is stepped over by its data length whatever
    its type and data are, and the attributes of the TXT record go to the
    candidate whatever the name of the TXT record is; the candidate bears
    the name of the last record whose name holds the target service
    name. *)
Theorem parseMDNSResponse_two_answers h_id h_flags ls1 type1 class1 ttl1 rdata1
    ls2 ttl2 es sender devs fuel :
  (h_flags < 65536)%N → N.testbit h_flags 15 = true →
  ls1 ≠ [] → Forall (λ l, 1 ≤ length l ∧ length l ≤ 63) ls1 →
  ls2 ≠ [] → Forall (λ l, 1 ≤ length l ∧ length l ≤ 63) ls2 →
  (type1 < 65536)%N → type1 ≠ 16%N →
  (N.of_nat (length rdata1) < 65536)%N →
  contains target_service (join_dots ls1) = true →
  Forall entry_wf es → (N.of_nat (length (txt_bytes es)) < 65536)%N →
  length ls1 < fuel → length ls2 < fuel →
  parseMDNSResponse fuel
    (two_answer_response h_id h_flags ls1 type1 class1 ttl1 rdata1 ls2 ttl2 es)
    sender devs
  = let '(devs', calls) :=
      reconcile devs
        {| name := if contains target_service (join_dots ls2)
                   then join_dots ls2 else join_dots ls1;
           ip := sender; txtRecords := foldl store ∅ es |} in
    Some (Processed devs' calls).
Proof.
  intros Hflags Hbit Hne1 Hok1 Hne2 Hok2 Hty1 Hnot16 Hlen1 Htarget Hwf Hlen2
    Hfuel1 Hfuel2.
  unfold two_answer_response.
  set (hdr := header_bytes _).
  set (record1 := record_bytes ls1 type1 class1 ttl1 rdata1).
  set (record2 := record_bytes ls2 16 1 ttl2 (txt_bytes es)).
  assert (length hdr = 12) as Hhdr by done.
  assert (get16 (hdr ++ record1 ++ record2) 2 = Some h_flags) as Hget2.
  { change (get16 (hdr ++ record1 ++ record2) 2)
      with (Some (be16 (u8 (N.shiftr h_flags 8)) (u8 h_flags))).
    by rewrite be16_htons, N.mod_small. }
  assert (get16 (hdr ++ record1 ++ record2) 4 = Some 0%N) as Hget4 by done.
  assert (get16 (hdr ++ record1 ++ record2) 6 = Some 2%N) as Hget6 by done.
  destruct (parseRecordHeader_record_bytes ls1 type1 class1 ttl1 rdata1
              hdr record2 fuel) as [Hrr1 _]; [done..|].
  destruct (parseRecordHeader_record_bytes ls2 16 1 ttl2 (txt_bytes es)
              (hdr ++ record1) [] fuel) as [Hrr2 Hdata]; [done..|].
  rewrite app_nil_r, <- (assoc_L (++)) in Hrr2, Hdata.
  fold record1 in Hrr1. fold record2 in Hrr2, Hdata.
  assert (length hdr + length (labels_bytes ls1) + 11 + length rdata1
          = length (hdr ++ record1)) as Hnext.
  { rewrite length_app. unfold record1. rewrite length_record_bytes. lia. }
  clearbody hdr. unfold parseMDNSResponse, header_size.
  rewrite decide_False by (rewrite length_app; lia).
  rewrite Hget2, Hget4, Hget6.
  rewrite decide_False; cycle 1.
  { intros Hland. apply land_bit15 in Hland. congruence. }
  change (N.to_nat 0) with 0. change (N.to_nat 2) with 2.
  cbn [skip_questions parse_answers]. rewrite <- Hhdr at 1. rewrite Hrr1.
  unfold apply_record at 1. cbn [rr_name rr_type rr_rdlength rr_rdata].
  rewrite Htarget. rewrite decide_False by done.
  rewrite Hnext, Hrr2.
  unfold apply_record. cbn [rr_name rr_type rr_rdlength rr_rdata].
  assert (parseTXT (txt_bytes es) ∅ = foldl store ∅ es) as Htxt.
  { unfold parseTXT.
    pose proof (parseTXT_loop_entries es _ [] [] ∅ Hwf I (le_n _)) as Hdec.
    cbn [app length] in Hdec. by rewrite app_nil_r in Hdec. }
  destruct (contains target_service (join_dots ls2)) eqn:Htarget2;
    rewrite decide_True by done; cbn [name ip txtRecords];
    rewrite Hdata, Htxt; unfold notify; cbn [name].
  - rewrite decide_False; [done|].
    apply (contains_nonempty target_service); [discriminate|exact Htarget2].
  - rewrite decide_False; [done|].
    apply (contains_nonempty target_service); [discriminate|exact Htarget].
Qed.

End TwoAnswers.

(** X25 on an SRV record for the name of [tv] followed by the TXT record
    of a printer: the attributes of the printer go to [tv]. *)
Lemma parseMDNSResponse_two_answers_witness :
  (0x8400 < 65536)%N ∧ N.testbit 0x8400 15 = true ∧
  tv_labels ≠ [] ∧ Forall (λ l, 1 ≤ length l ∧ length l ≤ 63) tv_labels ∧
  printer_labels ≠ [] ∧
  Forall (λ l, 1 ≤ length l ∧ length l ≤ 63) printer_labels ∧
  (33 < 65536)%N ∧ 33%N ≠ 16%N ∧ (N.of_nat (length srv_rdata) < 65536)%N ∧
  contains target_service (join_dots tv_labels) = true ∧
  contains target_service (join_dots printer_labels) = false ∧
  Forall entry_wf tv_entries ∧
  (N.of_nat (length (txt_bytes tv_entries)) < 65536)%N ∧
  length tv_labels < 5 ∧ length printer_labels < 5 ∧
  parseMDNSResponse 5
    (two_answer_response 0 0x8400 tv_labels 33 1 120 srv_rdata
       printer_labels 120 tv_entries)
    (str "192.168.1.20") [box]
  = Some (Processed [box; tv] [tv]).
Proof.
  assert (Forall (λ l, 1 ≤ length l ∧ length l ≤ 63) tv_labels) as Hok1.
  { repeat first [apply Forall_nil_2 | apply Forall_cons_2]; cbn; lia. }
  assert (Forall (λ l, 1 ≤ length l ∧ length l ≤ 63) printer_labels) as Hok2.
  { repeat first [apply Forall_nil_2 | apply Forall_cons_2]; cbn; lia. }
  assert (Forall entry_wf tv_entries) as Hwf.
  { repeat first [apply Forall_nil_2 | apply Forall_cons_2].
    split; [cbn; lia | by apply (bool_decide_eq_false_1 _)]. }
  split; [lia|]. split; [reflexivity|]. split; [discriminate|].
  split; [exact Hok1|]. split; [discriminate|]. split; [exact Hok2|].
  split; [lia|]. split; [discriminate|]. split; [reflexivity|].
  split; [reflexivity|]. split; [reflexivity|]. split; [exact Hwf|].
  split; [reflexivity|]. split; [cbn; lia|]. split; [cbn; lia|].
  apply (parseMDNSResponse_two_answers 0 0x8400 tv_labels 33 1 120 srv_rdata
           printer_labels 120 tv_entries (str "192.168.1.20") [box] 5);
    [lia | reflexivity | discriminate | exact Hok1 | discriminate | exact Hok2
    | lia | discriminate | reflexivity | reflexivity | exact Hwf
    | reflexivity | cbn; lia | cbn; lia].
Defined.

(** ** The ESP32 client *)

Section Esp32Client.

Import Esp32.

Implicit Types (results : list mdns_result_t) (devices : list MDNSDevice).

Lemma parse_mdns_response_named results devices fuel :
  Forall named results → length results < fuel →
  parse_mdns_response fuel results devices
  = Some (devices ++ map device_of results).
Proof.
  revert devices fuel.
  induction results as [|r results IH]; intros devices fuel Hnamed Hfuel.
  - destruct fuel; [cbn in Hfuel; lia|]. cbn. by rewrite app_nil_r.
  - destruct fuel as [|fuel]; [cbn in Hfuel; lia|].
    apply Forall_cons in Hnamed as [[[h Hh] [n Hn]] Hnamed].
    cbn [parse_mdns_response]. rewrite Hh, Hn.
    rewrite IH by (done || cbn in Hfuel; lia).
    cbn [map]. unfold device_of at 2. rewrite Hh, Hn. cbn [default].
    by rewrite <- (assoc_L (++)).
Qed.

Lemma parse_mdns_response_some results devices devices' fuel :
  parse_mdns_response fuel results devices = Some devices' →
  Forall named results ∧ devices' = devices ++ map device_of results.
Proof.
  revert results devices.
  induction fuel as [|fuel IH]; intros results devices Hret; [done|].
  destruct results as [|r next].
  - cbn in Hret. simplify_eq. by rewrite app_nil_r.
  - cbn [parse_mdns_response] in Hret.
    destruct (hostname r) as [h|] eqn:Hh; cycle 1.
    { apply IH in Hret as [[[[? Hsome] _] _]%Forall_cons _]. congruence. }
    destruct (instance_name r) as [n|] eqn:Hn; cycle 1.
    { apply IH in Hret as [[[_ [? Hsome]] _]%Forall_cons _]. congruence. }
    apply IH in Hret as [Hnamed ->]. split.
    + apply Forall_cons. split; [|done].
      unfold named. rewrite Hh, Hn. by split.
    + cbn [map]. unfold device_of at 2. rewrite Hh, Hn. cbn [default].
      by rewrite <- (assoc_L (++)).
Qed.


(** X27: [start_discovery] forgets the devices of the earlier runs: when the
    query fails it returns the code of the query and leaves no device;
    when the query succeeds with answers that all have both names it
    leaves the devices of these answers and nothing else. *)
Theorem start_discovery_forgets err results devices fuel :
  (err ≠ ESP_OK →
   start_discovery fuel (err, results) devices = Some (err, [])) ∧
  (Forall named results → length results < fuel →
   start_discovery fuel (ESP_OK, results) devices
   = Some (ESP_OK, map device_of results)).
Proof.
  unfold start_discovery. split.
  - intros Herr. by rewrite decide_True.
  - intros Hnamed Hfuel. rewrite decide_False by (by intros []).
    destruct results as [|r results]; [done|].
    by rewrite parse_mdns_response_named.
Qed.

Lemma decimal_octet n : (n < 256)%N → length (decimal n) ≤ 3.
Proof.
  intros Hn.
  assert (forallb (λ k, length (decimal (N.of_nat k)) <=? 3) (seq 0 256) = true)
    as Hall by (vm_compute; reflexivity).
  rewrite forallb_forall in Hall.
  specialize (Hall (N.to_nat n)). rewrite N2Nat.id in Hall.
  apply Nat.leb_le, Hall, in_seq. lia.
Qed.

Lemma land_octet n : (N.land n 0xff < 256)%N.
Proof.
  change 0xff%N with (N.ones 8). rewrite N.land_ones.
  by apply N.mod_lt.
Qed.

(** X28: the string [resolve_mdns_host] builds has at most 15 characters
    whatever the resolver answers, so that [sprintf] stays within the 16
    bytes of [ip_str]. *)
Theorem resolve_mdns_host_fits err addr :
  length (resolve_mdns_host (err, addr)) ≤ 15.
Proof.
  unfold resolve_mdns_host. case_decide; [cbn; lia|].
  rewrite !length_app. cbn [length].
  pose proof (decimal_octet _ (land_octet addr)).
  pose proof (decimal_octet _ (land_octet (N.shiftr addr 8))).
  pose proof (decimal_octet _ (land_octet (N.shiftr addr 16))).
  pose proof (decimal_octet _ (land_octet (N.shiftr addr 24))).
  lia.
Qed.

End Esp32Client.


(** X27 on a query that fails and on a query that returns one answer. *)
Lemma start_discovery_forgets_witness :
  ((-1)%Z ≠ Esp32.ESP_OK ∧
   Esp32.start_discovery 2 ((-1)%Z, [lamp_result]) [Esp32.device_of lamp_result]
   = Some ((-1)%Z, [])) ∧
  (Forall Esp32.named [lamp_result] ∧ length [lamp_result] < 2 ∧
   Esp32.start_discovery 2 (Esp32.ESP_OK, [lamp_result])
     [Esp32.device_of nameless_result]
   = Some (Esp32.ESP_OK, map Esp32.device_of [lamp_result])).
Proof.
  assert (Forall Esp32.named [lamp_result]) as Hnamed.
  { apply Forall_cons_2; [|apply Forall_nil_2]. split; eexists; reflexivity. }
  split.
  - split; [discriminate|].
    apply (proj1 (start_discovery_forgets (-1)%Z [lamp_result]
                    [Esp32.device_of lamp_result] 2)).
    discriminate.
  - split; [exact Hnamed|]. split; [cbn; lia|].
    apply (proj2 (start_discovery_forgets Esp32.ESP_OK [lamp_result]
                    [Esp32.device_of nameless_result] 2));
      [exact Hnamed | cbn; lia].
Defined.

(** ** Reads outside the datagram *)

Section Inside.

(** X29: a datagram that is empty or whose last byte is below 0x40 is decoded
    without any read outside of it. *)
Theorem parseMDNSResponse_stays_inside fuel data sender devs i :
  (∀ b, last data = Some b → is_pointer b = false) →
  parseMDNSResponse fuel data sender devs ≠ Some (OutOfBounds i).
Proof.
  intros Hlast Hout.
  apply parseMDNSResponse_out_of_bounds in Hout as (-> & len & Hlen & Hptr).
  rewrite last_lookup in Hlast.
  replace (length data - 1) with (pred (length data)) in Hlen by lia.
  apply Hlast in Hlen. congruence.
Qed.

End Inside.

(** X29 on a response whose last byte is the digit 2. *)
Lemma parseMDNSResponse_stays_inside_witness :
  (∀ b, last tv_update_datagram = Some b → is_pointer b = false) ∧
  parseMDNSResponse 5 tv_update_datagram (str "192.168.1.20") [box]
  ≠ Some (OutOfBounds (length tv_update_datagram)).
Proof.
  assert (∀ b, last tv_update_datagram = Some b → is_pointer b = false) as Hlast.
  { intros b Hb. vm_compute in Hb. injection Hb as <-. reflexivity. }
  split; [exact Hlast|].
  apply (parseMDNSResponse_stays_inside 5 tv_update_datagram). exact Hlast.
Defined.
